(** * ChillMCP state engine

    A shallow embedding of [src/config.py] and [src/state/manager.py]:
    the immutable [State] record with its [with_*] copy methods, the
    probabilistic decision [should_boss_alert_increase], and the
    [StateManager] whose methods run under a lock; and of the layers that
    call it, [src/utils/response.py], [src/tools/base.py] and the
    implemented tool of [src/tools/basic_tools.py] and [src/main.py].

    Python integers are unbounded, so every counter is a [Z].  The effects
    the code performs (reading the clock, sleeping, drawing a random
    integer, taking and releasing the lock, replacing the manager's state)
    are threaded through a small state-and-error monad over a [World].
    The same primitives drive a machine of interleaved threads, which is
    where the lock matters. *)

From stdpp Require Import prelude strings.
From Stdlib Require Import ZArith Lia DecimalString DecimalZ DecimalPos.

Open Scope Z_scope.

(** ** src/config.py *)

Definition STRESS_MIN : Z := 0.
Definition STRESS_MAX : Z := 100.
Definition BOSS_ALERT_MIN : Z := 0.
Definition BOSS_ALERT_MAX : Z := 5.
Definition STRESS_INCREASE_INTERVAL : Z := 60.
Definition BOSS_ALERT_DELAY : Z := 20.

Record Config := mkConfig {
  boss_alertness : Z;
  boss_alertness_cooldown : Z
}.

(** [Config._validate_alertness]: [max(0, min(100, value))]. *)
Definition _validate_alertness (value : Z) : Z := Z.max 0 (Z.min 100 value).

(** [Config.__init__], after [argparse] has turned the two command-line
    arguments into integers. *)
Definition Config_init (arg_boss_alertness arg_boss_alertness_cooldown : Z)
  : Config :=
  {| boss_alertness := _validate_alertness arg_boss_alertness;
     boss_alertness_cooldown := Z.max 1 arg_boss_alertness_cooldown |}.

(** ** The [State] dataclass *)

(** [last_activity_time] holds a reading of the clock; the model's clock
    counts seconds as an integer. *)
Record State := mkState {
  stress_level : Z;
  boss_alert_level : Z;
  last_activity_time : Z
}.

(** The fields of a [StateManager] object.  A [threading.Lock] has no
    owner: it is either held or free. *)
Record StateManager := mkStateManager {
  _state : State;
  _lock : bool;
  _running : bool
}.

(** ** The world the code runs in *)

(** What the code does to its environment, in program order. *)
Inductive event :=
| EvAcquire
| EvRelease
| EvSleep (seconds : Z)
| EvRandint (a b r : Z)
| EvTime (t : Z)
| EvStore (s : State).

(** The module-level globals [config] and [state_manager], the clock read
    by [time.time] and advanced by [time.sleep], the source of randomness
    (an arbitrary sequence of raw integers and the number already used) and
    the events so far. *)
Record World := mkWorld {
  config : Config;
  state_manager : StateManager;
  clock : Z;
  entropy : nat -> Z;
  cursor : nat;
  trace : list event
}.

Inductive exn := ValueError | RuntimeError.

(** A call returns a value, raises, or never returns because it waits for
    a lock nobody will release. *)
Inductive outcome (A : Type) :=
| Returned (a : A)
| Raised (e : exn)
| Blocked.
Arguments Returned {A} a.
Arguments Raised {A} e.
Arguments Blocked {A}.

Definition M (A : Type) : Type := World -> outcome A * World.

Definition ret {A} (a : A) : M A := fun w => (Returned a, w).

Definition bind {A B} (m : M A) (k : A -> M B) : M B := fun w =>
  match m w with
  | (Returned a, w') => k a w'
  | (Raised e, w') => (Raised e, w')
  | (Blocked, w') => (Blocked, w')
  end.

Notation "'let*' x ':=' m 'in' k" := (bind m (fun x => k))
  (at level 10, x pattern, m at level 100, k at level 200).

Definition log (e : event) (w : World) : World :=
  mkWorld (config w) (state_manager w) (clock w) (entropy w) (cursor w)
          (trace w ++ [e]).

Definition set_manager (m : StateManager) (w : World) : World :=
  mkWorld (config w) m (clock w) (entropy w) (cursor w) (trace w).

Definition advance (seconds : Z) (w : World) : World :=
  mkWorld (config w) (state_manager w) (clock w + seconds) (entropy w)
          (cursor w) (trace w).

Definition consume (w : World) : World :=
  mkWorld (config w) (state_manager w) (clock w) (entropy w) (S (cursor w))
          (trace w).

(** [time.time()]. *)
Definition time_time : M Z := fun w =>
  (Returned (clock w), log (EvTime (clock w)) w).

(** [time.sleep(seconds)]; a negative length is a [ValueError]. *)
Definition time_sleep (seconds : Z) : M unit := fun w =>
  if seconds <? 0 then (Raised ValueError, w)
  else (Returned tt, log (EvSleep seconds) (advance seconds w)).

(** The integer [random.randint(a, b)] makes of a raw value. *)
Definition randint_of (a b raw : Z) : Z := a + raw mod (b - a + 1).

(** [random.randint(a, b)]; an empty range is a [ValueError]. *)
Definition random_randint (a b : Z) : M Z := fun w =>
  if b <? a then (Raised ValueError, w)
  else let r := randint_of a b (entropy w (cursor w)) in
       (Returned r, log (EvRandint a b r) (consume w)).

(** Module-level [config] and the attributes of [self]. *)
Definition read_config : M Config := fun w => (Returned (config w), w).

Definition read_state : M State := fun w =>
  (Returned (_state (state_manager w)), w).

Definition read_running : M bool := fun w =>
  (Returned (_running (state_manager w)), w).

(** [self._state = s]. *)
Definition write_state (s : State) : M unit := fun w =>
  let self := state_manager w in
  (Returned tt,
   log (EvStore s)
     (set_manager (mkStateManager s (_lock self) (_running self)) w)).

Definition write_running (b : bool) : M unit := fun w =>
  let self := state_manager w in
  (Returned tt, set_manager (mkStateManager (_state self) (_lock self) b) w).

(** [self._lock.acquire()]: waits while the lock is held. *)
Definition lock_acquire : M unit := fun w =>
  let self := state_manager w in
  if _lock self then (Blocked, w)
  else (Returned tt,
        log EvAcquire
          (set_manager (mkStateManager (_state self) true (_running self)) w)).

(** [self._lock.release()]: releasing a free lock is a [RuntimeError]. *)
Definition lock_release : M unit := fun w =>
  let self := state_manager w in
  if _lock self
  then (Returned tt,
        log EvRelease
          (set_manager (mkStateManager (_state self) false (_running self)) w))
  else (Raised RuntimeError, w).

(** [with self._lock: body].  The lock is released when the body returns
    and when it raises. *)
Definition with_lock {A} (body : M A) : M A := fun w =>
  match lock_acquire w with
  | (Returned _, w1) =>
      match body w1 with
      | (Blocked, w2) => (Blocked, w2)
      | (r, w2) =>
          match lock_release w2 with
          | (Returned _, w3) => (r, w3)
          | (Raised e, w3) => (Raised e, w3)
          | (Blocked, w3) => (Blocked, w3)
          end
      end
  | (Raised e, w1) => (Raised e, w1)
  | (Blocked, w1) => (Blocked, w1)
  end.

(** ** Methods of [State] *)

Definition with_stress_decrease (self : State) (decrease : Z) : M State :=
  let new_stress := Z.max STRESS_MIN (stress_level self - decrease) in
  let* now := time_time in
  ret (mkState new_stress (boss_alert_level self) now).

Definition with_boss_increase (self : State) : State :=
  let new_boss := Z.min BOSS_ALERT_MAX (boss_alert_level self + 1) in
  mkState (stress_level self) new_boss (last_activity_time self).

Definition with_boss_decrease (self : State) : State :=
  let new_boss := Z.max BOSS_ALERT_MIN (boss_alert_level self - 1) in
  mkState (stress_level self) new_boss (last_activity_time self).

Definition with_stress_increase (self : State) : State :=
  let new_stress := Z.min STRESS_MAX (stress_level self + 1) in
  mkState new_stress (boss_alert_level self) (last_activity_time self).

(** [random.randint(1, 100) <= alertness_probability]. *)
Definition should_boss_alert_increase (alertness_probability : Z) : M bool :=
  let* r := random_randint 1 100 in
  ret (r <=? alertness_probability).

(** ** Methods of [StateManager] *)

(** [StateManager.__init__].  The two daemon threads it starts are the
    loops [_auto_increase_stress] and [_auto_decrease_boss_alert] below. *)
Definition StateManager_init : M unit := fun w =>
  match time_time w with
  | (Returned now, w') =>
      (Returned tt,
       log (EvStore (mkState 50 0 now))
         (set_manager (mkStateManager (mkState 50 0 now) false true) w'))
  | (Raised e, w') => (Raised e, w')
  | (Blocked, w') => (Blocked, w')
  end.

(** One turn of the loop of [_auto_increase_stress]. *)
Definition _auto_increase_stress_turn : M unit :=
  let* _ := time_sleep STRESS_INCREASE_INTERVAL in
  with_lock (
    let* s := read_state in
    write_state (with_stress_increase s)).

(** One turn of the loop of [_auto_decrease_boss_alert]. *)
Definition _auto_decrease_boss_alert_turn : M unit :=
  let* cfg := read_config in
  let* _ := time_sleep (boss_alertness_cooldown cfg) in
  with_lock (
    let* s := read_state in
    write_state (with_boss_decrease s)).

(** [while self._running: turn], for at most [fuel] turns.  The result
    tells whether the loop ended because [_running] was false. *)
Fixpoint while_running (fuel : nat) (turn : M unit) : M bool :=
  match fuel with
  | O => ret false
  | S fuel' =>
      let* running := read_running in
      if running
      then let* _ := turn in while_running fuel' turn
      else ret true
  end.

Definition _auto_increase_stress (fuel : nat) : M bool :=
  while_running fuel _auto_increase_stress_turn.

Definition _auto_decrease_boss_alert (fuel : nat) : M bool :=
  while_running fuel _auto_decrease_boss_alert_turn.

Definition take_break (stress_decrease : Z) : M (Z * Z) :=
  with_lock (
    let* s := read_state in
    let* _ := (if boss_alert_level s =? BOSS_ALERT_MAX
               then time_sleep BOSS_ALERT_DELAY
               else ret tt) in
    let* cfg := read_config in
    let* boss_increase := should_boss_alert_increase (boss_alertness cfg) in
    let* s := read_state in
    let* new_state := with_stress_decrease s stress_decrease in
    let new_state :=
      if boss_increase then with_boss_increase new_state else new_state in
    let* _ := write_state new_state in
    let* s := read_state in
    ret (stress_level s, boss_alert_level s)).

Definition get_state : M (Z * Z) :=
  with_lock (
    let* s := read_state in
    ret (stress_level s, boss_alert_level s)).

Definition reset : M unit :=
  with_lock (
    let* now := time_time in
    write_state (mkState 50 0 now)).

Definition stop : M unit := write_running false.

(** Process start: [config = Config()] in [src/config.py], then
    [state_manager = StateManager()] in [src/state/manager.py].  Until the
    constructor has run there is no manager; the placeholder it replaces
    is never read. *)
Definition boot (arg_boss_alertness arg_boss_alertness_cooldown : Z)
    (clock0 : Z) (entropy0 : nat -> Z) : World :=
  let w0 := mkWorld (Config_init arg_boss_alertness arg_boss_alertness_cooldown)
                    (mkStateManager (mkState 0 0 0) false false)
                    clock0 entropy0 O [] in
  snd (StateManager_init w0).


(** ** Threads

    [main.py] serves every tool call through the one global manager, and
    the manager's constructor starts two daemon threads, so the methods
    above run interleaved.  A thread is the point it has reached in its
    method together with its local variables; it moves one statement at a
    time, each statement being one of the monad's actions applied to the
    shared [World]. *)

Inductive thread :=
(* take_break(stress_decrease), manager.py 219-238 *)
| TbCall (stress_decrease : Z)                        (* 219: with self._lock *)
| TbHeld (stress_decrease : Z)                        (* 221: if ... == BOSS_ALERT_MAX *)
| TbSleep (stress_decrease : Z) (wake : Z)            (* 222: inside time.sleep *)
| TbDraw (stress_decrease : Z)                        (* 225 *)
| TbLower (stress_decrease : Z) (boss_increase : bool) (* 228 *)
| TbRaise (boss_increase : bool) (new_state : State)  (* 231-232 *)
| TbStore (new_state : State)                         (* 235 *)
| TbRead                                              (* 238: self._state.stress_level *)
| TbRead2 (stress : Z)                                (* 238: self._state.boss_alert_level *)
| TbExit (result : Z * Z)                             (* leaving the with block *)
| TbDone (result : Z * Z)
(* get_state(), manager.py 246-247 *)
| GsCall
| GsRead
| GsRead2 (stress : Z)
| GsExit (result : Z * Z)
| GsDone (result : Z * Z)
(* _auto_increase_stress(), manager.py 181-184 *)
| IsTest                                              (* 181: while self._running *)
| IsNap                                               (* 182: time.sleep(...) *)
| IsSleep (wake : Z)
| IsCall                                              (* 183: with self._lock *)
| IsHeld                                              (* 184: right-hand side *)
| IsStore (new_state : State)                         (* 184: assignment *)
| IsExit
| IsEnd
(* _auto_decrease_boss_alert(), manager.py 195-198 *)
| BdTest
| BdNap
| BdSleep (wake : Z)
| BdCall
| BdHeld
| BdStore (new_state : State)
| BdExit
| BdEnd
(* reset(), manager.py 257-262 *)
| RsCall
| RsHeld
| RsStore (new_state : State)
| RsExit
| RsDone
(* stop(), manager.py 266 *)
| StCall
| StDone
(* an exception on its way out of a with block, and a thread it ended *)
| Unwind (e : exn)
| Crashed (e : exn).

(** Whether the thread is between taking the lock and releasing it. *)
Definition inside (t : thread) : bool :=
  match t with
  | TbHeld _ | TbSleep _ _ | TbDraw _ | TbLower _ _ | TbRaise _ _ | TbStore _
  | TbRead | TbRead2 _ | TbExit _
  | GsRead | GsRead2 _ | GsExit _
  | IsHeld | IsStore _ | IsExit
  | BdHeld | BdStore _ | BdExit
  | RsHeld | RsStore _ | RsExit
  | Unwind _ => true
  | _ => false
  end.

(** The start of [time.sleep(seconds)]: the time at which it ends. *)
Definition sleep_until (seconds : Z) : M Z := fun w =>
  if seconds <? 0 then (Raised ValueError, w)
  else (Returned (clock w + seconds), log (EvSleep seconds) w).

(** The end of a sleep: not before the clock has reached [wake]. *)
Definition woken (wake : Z) : M unit := fun w =>
  if wake <=? clock w then (Returned tt, w) else (Blocked, w).

(** One statement: run [m]; go to [next] with its value, to [fail] with
    its exception; stay put while it cannot proceed. *)
Definition go {A} (m : M A) (next : A -> thread) (fail : exn -> thread)
    (w : World) : option (thread * World) :=
  match m w with
  | (Returned a, w') => Some (next a, w')
  | (Raised e, w') => Some (fail e, w')
  | (Blocked, _) => None
  end.

Definition step_thread (t : thread) : World -> option (thread * World) :=
  match t with
  | TbCall d => go lock_acquire (fun _ => TbHeld d) Crashed
  | TbHeld d =>
      go (let* s := read_state in
          if boss_alert_level s =? BOSS_ALERT_MAX
          then let* wake := sleep_until BOSS_ALERT_DELAY in ret (TbSleep d wake)
          else ret (TbDraw d))
         id Unwind
  | TbSleep d wake => go (woken wake) (fun _ => TbDraw d) Unwind
  | TbDraw d =>
      go (let* cfg := read_config in
          should_boss_alert_increase (boss_alertness cfg))
         (TbLower d) Unwind
  | TbLower d boss_increase =>
      go (let* s := read_state in with_stress_decrease s d)
         (TbRaise boss_increase) Unwind
  | TbRaise boss_increase new_state =>
      go (ret (if boss_increase then with_boss_increase new_state
               else new_state))
         TbStore Unwind
  | TbStore new_state => go (write_state new_state) (fun _ => TbRead) Unwind
  | TbRead => go read_state (fun s => TbRead2 (stress_level s)) Unwind
  | TbRead2 stress =>
      go read_state (fun s => TbExit (stress, boss_alert_level s)) Unwind
  | TbExit result => go lock_release (fun _ => TbDone result) Crashed
  | TbDone _ => fun _ => None
  | GsCall => go lock_acquire (fun _ => GsRead) Crashed
  | GsRead => go read_state (fun s => GsRead2 (stress_level s)) Unwind
  | GsRead2 stress =>
      go read_state (fun s => GsExit (stress, boss_alert_level s)) Unwind
  | GsExit result => go lock_release (fun _ => GsDone result) Crashed
  | GsDone _ => fun _ => None
  | IsTest => go read_running (fun r => if r : bool then IsNap else IsEnd) Crashed
  | IsNap => go (sleep_until STRESS_INCREASE_INTERVAL) IsSleep Crashed
  | IsSleep wake => go (woken wake) (fun _ => IsCall) Crashed
  | IsCall => go lock_acquire (fun _ => IsHeld) Crashed
  | IsHeld => go read_state (fun s => IsStore (with_stress_increase s)) Unwind
  | IsStore new_state => go (write_state new_state) (fun _ => IsExit) Unwind
  | IsExit => go lock_release (fun _ => IsTest) Crashed
  | IsEnd => fun _ => None
  | BdTest => go read_running (fun r => if r : bool then BdNap else BdEnd) Crashed
  | BdNap =>
      go (let* cfg := read_config in
          sleep_until (boss_alertness_cooldown cfg))
         BdSleep Crashed
  | BdSleep wake => go (woken wake) (fun _ => BdCall) Crashed
  | BdCall => go lock_acquire (fun _ => BdHeld) Crashed
  | BdHeld => go read_state (fun s => BdStore (with_boss_decrease s)) Unwind
  | BdStore new_state => go (write_state new_state) (fun _ => BdExit) Unwind
  | BdExit => go lock_release (fun _ => BdTest) Crashed
  | BdEnd => fun _ => None
  | RsCall => go lock_acquire (fun _ => RsHeld) Crashed
  | RsHeld => go time_time (fun now => RsStore (mkState 50 0 now)) Unwind
  | RsStore new_state => go (write_state new_state) (fun _ => RsExit) Unwind
  | RsExit => go lock_release (fun _ => RsDone) Crashed
  | RsDone => fun _ => None
  | StCall => go (write_running false) (fun _ => StDone) Crashed
  | StDone => fun _ => None
  | Unwind e => go lock_release (fun _ => Crashed e) Crashed
  | Crashed _ => fun _ => None
  end.

(** The scheduler's moves: let a second pass, or let thread [i] try its
    next statement. *)
Inductive choice := Tick | Run (i : nat).

Definition machine : Type := list thread * World.

(** A thread that cannot proceed (it waits for the lock, sleeps, or has
    finished) leaves the machine as it is. *)
Definition step (m : machine) (c : choice) : machine :=
  let (pool, w) := m in
  match c with
  | Tick => (pool, advance 1 w)
  | Run i =>
      match pool !! i with
      | Some t =>
          match step_thread t w with
          | Some (t', w') => (<[i:=t']> pool, w')
          | None => m
          end
      | None => m
      end
  end.

Definition exec (schedule : list choice) (m : machine) : machine :=
  fold_left step schedule m.

(** A thread that has not begun. *)
Definition fresh (t : thread) : bool :=
  match t with
  | TbCall _ | GsCall | IsTest | BdTest | RsCall | StCall => true
  | _ => false
  end.

(** ** src/utils/response.py

    A Python [str] is modelled by the bytes of its UTF-8 encoding, which
    is all that concatenation needs. *)

Definition LF : string := String (Ascii.ascii_of_nat 10) EmptyString.

(** What an f-string makes of an [int]: its decimal digits, after a minus
    sign when it is negative. *)
Definition str_of_int (n : Z) : string := NilZero.string_of_int (Z.to_int n).

(** The values the responses are built of. *)
#[warnings="-register-all"] Inductive pyobj :=
| PyStr (s : string)
| PyList (items : list pyobj)
| PyDict (entries : list (string * pyobj)).

(** [d[key]] and [l[index]]; [None] where Python raises. *)
Definition getitem_key (o : pyobj) (key : string) : option pyobj :=
  match o with
  | PyDict entries =>
      match find (fun e => String.eqb (fst e) key) entries with
      | Some e => Some (snd e)
      | None => None
      end
  | _ => None
  end.

Definition getitem_index (o : pyobj) (index : nat) : option pyobj :=
  match o with
  | PyList items => items !! index
  | _ => None
  end.

Module Response.

Record ResponseData := mkResponseData {
  summary : string;
  stress_level : Z;
  boss_alert_level : Z;
  emoji : string
}.

Definition create_response_text (data : ResponseData) : string :=
  emoji data +:+ " " +:+ summary data +:+ LF +:+ LF +:+
  "Break Summary: " +:+ summary data +:+ LF +:+
  "Stress Level: " +:+ str_of_int (stress_level data) +:+ LF +:+
  "Boss Alert Level: " +:+ str_of_int (boss_alert_level data).

(** The [emoji] parameter has a default in the source; every call in the
    code passes it, and so does every call here. *)
Definition format_response (summary : string) (stress_level boss_alert_level : Z)
    (emoji : string) : pyobj :=
  let data := mkResponseData summary stress_level boss_alert_level emoji in
  let formatted_text := create_response_text data in
  PyDict [("content",
           PyList [PyDict [("type", PyStr "text");
                           ("text", PyStr formatted_text)]])].

End Response.

(** ** src/tools/base.py *)

Module Tools.

Record ToolConfig := mkToolConfig {
  summary : string;
  emoji : string;
  stress_decrease : option Z
}.

Definition calculate_stress_decrease_if_needed (stress_decrease : option Z)
  : M Z :=
  match stress_decrease with
  | None => random_randint 1 100
  | Some d => ret d
  end.

Definition create_tool_response (tool_config : ToolConfig)
    (stress_level boss_alert_level : Z) : pyobj :=
  Response.format_response (summary tool_config) stress_level
    boss_alert_level (emoji tool_config).

(** [BaseTool.create_response]. *)
Definition create_response (summary emoji : string)
    (stress_decrease : option Z) : M pyobj :=
  let* final_decrease := calculate_stress_decrease_if_needed stress_decrease in
  let* levels := take_break final_decrease in
  let tool_config := mkToolConfig summary emoji (Some final_decrease) in
  ret (create_tool_response tool_config (fst levels) (snd levels)).

End Tools.

(** ** src/tools/basic_tools.py and src/main.py *)

(** The sleeping-face emoji, U+1F634, in UTF-8. *)
Definition EMOJI_SLEEPING : string :=
  String (Ascii.ascii_of_nat 240) (String (Ascii.ascii_of_nat 159)
    (String (Ascii.ascii_of_nat 152) (String (Ascii.ascii_of_nat 180) EmptyString))).

(** [TakeABreak.execute]. *)
Definition TakeABreak_execute : M pyobj :=
  Tools.create_response "Taking a short break to relax" EMOJI_SLEEPING None.

(** The [take_a_break] tool of [main.py]. *)
Definition take_a_break : M pyobj := TakeABreak_execute.

(** [random.choice] either returns an element or raises [IndexError]. *)
Inductive picked :=
| Picked (item : string)
| IndexError.

(** [pick_random_item(items)], that is [random.choice(items)]: the element
    at a random index below the length, [IndexError] for an empty
    tuple.  The draw uses up one random value; the trace, which records
    [random.randint] only, is left as it is. *)
Definition pick_random_item (items : list string) (w : World)
  : picked * World :=
  match items with
  | [] => (IndexError, w)
  | _ =>
      let index := Z.to_nat (entropy w (cursor w) mod Z.of_nat (length items)) in
      (match items !! index with
       | Some item => Picked item
       | None => IndexError
       end, consume w)
  end.
(** ** What one call of [take_break] does, in closed form *)

Definition in_bounds (s : State) : Prop :=
  0 <= stress_level s <= 100 /\ 0 <= boss_alert_level s <= 5.

Definition current (w : World) : State := _state (state_manager w).

Definition lock_free (w : World) : Prop := _lock (state_manager w) = false.

(** The integer the next call of [random.randint(1, 100)] returns. *)
Definition next_draw (w : World) : Z := randint_of 1 100 (entropy w (cursor w)).

(** How long [take_break] sleeps when it starts in [w]. *)
Definition threshold_delay (w : World) : Z :=
  if boss_alert_level (current w) =? BOSS_ALERT_MAX then BOSS_ALERT_DELAY else 0.

(** The decision the next call of [should_boss_alert_increase] with the
    configured probability returns. *)
Definition escalates (w : World) : bool :=
  next_draw w <=? boss_alertness (config w).

Definition break_state (stress_decrease : Z) (w : World) : State :=
  let s := current w in
  let lowered :=
    mkState (Z.max STRESS_MIN (stress_level s - stress_decrease))
            (boss_alert_level s) (clock w + threshold_delay w) in
  if escalates w then with_boss_increase lowered else lowered.

Definition break_events (stress_decrease : Z) (w : World) : list event :=
  [EvAcquire] ++
  (if boss_alert_level (current w) =? BOSS_ALERT_MAX
   then [EvSleep BOSS_ALERT_DELAY] else []) ++
  [EvRandint 1 100 (next_draw w); EvTime (clock w + threshold_delay w);
   EvStore (break_state stress_decrease w); EvRelease].

Definition break_world (stress_decrease : Z) (w : World) : World :=
  mkWorld (config w)
          (mkStateManager (break_state stress_decrease w) false
                          (_running (state_manager w)))
          (clock w + threshold_delay w) (entropy w) (S (cursor w))
          (trace w ++ break_events stress_decrease w).


(** ** Sequences of operations on the manager *)

Inductive operation :=
| OpTakeBreak (stress_decrease : Z)
| OpGetState
| OpIncreaseStress      (* one turn of [_auto_increase_stress] *)
| OpDecreaseAlert       (* one turn of [_auto_decrease_boss_alert] *)
| OpReset.

Definition perform (o : operation) : M unit :=
  match o with
  | OpTakeBreak d => let* _ := take_break d in ret tt
  | OpGetState => let* _ := get_state in ret tt
  | OpIncreaseStress => _auto_increase_stress_turn
  | OpDecreaseAlert => _auto_decrease_boss_alert_turn
  | OpReset => reset
  end.

(** The outcome and the world after each operation, in order. *)
Fixpoint history (ops : list operation) (w : World)
  : list (outcome unit * World) :=
  match ops with
  | [] => []
  | o :: ops' => let r := perform o w in r :: history ops' (snd r)
  end.

Definition amount_nonneg (o : operation) : Prop :=
  match o with
  | OpTakeBreak d => 0 <= d
  | _ => True
  end.

(** The world after one background turn that replaces the state by
    [f] of it after sleeping [seconds]. *)
Definition turn_world (seconds : Z) (f : State -> State) (w : World) : World :=
  mkWorld (config w)
          (mkStateManager (f (current w)) false (_running (state_manager w)))
          (clock w + seconds) (entropy w) (cursor w)
          (trace w ++ [EvSleep seconds; EvAcquire; EvStore (f (current w));
                       EvRelease]).

Definition reset_world (w : World) : World :=
  mkWorld (config w)
          (mkStateManager (mkState 50 0 (clock w)) false
                          (_running (state_manager w)))
          (clock w) (entropy w) (cursor w)
          (trace w ++ [EvAcquire; EvTime (clock w);
                       EvStore (mkState 50 0 (clock w)); EvRelease]).

(** ** Vocabulary for the interleaved threads *)

Definition lock_held (w : World) : bool := _lock (state_manager w).

(** How many threads of the pool are inside a [with self._lock] block. *)
Definition holders (pool : list thread) : nat :=
  sum_list_with (fun t => Nat.b2n (inside t)) pool.

(** [s] has been the manager's state: it is the state the run began with
    or one a thread has assigned since. *)
Definition installed (s0 : State) (w : World) (s : State) : Prop :=
  s = s0 \/ In (EvStore s) (trace w).

Definition snapshot (s : State) : Z * Z := (stress_level s, boss_alert_level s).

(** A [take_break] thread whose assignment to [self._state] is done. *)
Definition stored (t : thread) : bool :=
  match t with
  | TbRead | TbRead2 _ | TbExit _ | TbDone _ => true
  | _ => false
  end.

(** A thread running [take_break]. *)
Definition breaking (t : thread) : bool :=
  match t with
  | TbCall _ | TbHeld _ | TbSleep _ _ | TbDraw _ | TbLower _ _ | TbRaise _ _
  | TbStore _ | TbRead | TbRead2 _ | TbExit _ | TbDone _ => true
  | _ => false
  end.

Definition count (f : thread -> bool) (pool : list thread) : nat :=
  sum_list_with (fun t => Nat.b2n (f t)) pool.

(** Every [take_break] thread of the pool has returned. *)
Definition breaks_returned (pool : list thread) : Prop :=
  Forall (fun t => breaking t = true -> exists r, t = TbDone r) pool.

(** What a thread's local variables hold of the shared state: a counter
    read inside the lock is the current one, and a pair that has been
    returned is the pair of counters of one installed state. *)
Definition sound (s0 : State) (w : World) (t : thread) : Prop :=
  match t with
  | TbRead2 stress | GsRead2 stress => stress = stress_level (current w)
  | TbExit result | GsExit result => result = snapshot (current w)
  | TbDone result | GsDone result =>
      exists s, installed s0 w s /\ result = snapshot s
  | _ => True
  end.

(** The scenario of callers each lowering the stress from 100 by 1 while
    the alert level stays at [alert0]: what each thread's locals hold
    once [n] of the callers have assigned their new state. *)
Definition tidy (alert0 : Z) (n : nat) (w : World) (t : thread) : Prop :=
  match t with
  | TbCall d | TbHeld d | TbSleep d _ | TbDraw d => d = 1
  | TbLower d boss_increase => d = 1 /\ boss_increase = false
  | TbRaise boss_increase new_state =>
      boss_increase = false /\
      stress_level new_state = Z.max 0 (stress_level (current w) - 1) /\
      boss_alert_level new_state = alert0
  | TbStore new_state =>
      stress_level new_state = Z.max 0 (stress_level (current w) - 1) /\
      boss_alert_level new_state = alert0
  | TbRead2 stress | GsRead2 stress => stress = stress_level (current w)
  | TbExit result | GsExit result => result = snapshot (current w)
  | TbDone result | GsDone result =>
      exists k : nat,
        (k <= n)%nat /\ result = (Z.max 0 (100 - Z.of_nat k), alert0)
  | TbRead | GsCall | GsRead => True
  | _ => False
  end.

(** How many statements a caller still has to run. *)
Definition remaining (t : thread) : nat :=
  match t with
  | TbCall _ => 10
  | TbHeld _ => 9
  | TbSleep _ _ => 8
  | TbDraw _ => 7
  | TbLower _ _ => 6
  | TbRaise _ _ => 5
  | TbStore _ => 4
  | TbRead => 3
  | TbRead2 _ => 2
  | TbExit _ => 1
  | GsCall => 4
  | GsRead => 3
  | GsRead2 _ => 2
  | GsExit _ => 1
  | _ => 0
  end.

(** How long a thread still has to sleep. *)
Definition nap_left (t : thread) (w : World) : nat :=
  match t with
  | TbSleep _ wake => Z.to_nat (wake - clock w)
  | _ => O
  end.

(** What every operation keeps true of the world. *)
Definition steady (w : World) : Prop :=
  lock_free w /\ 0 <= boss_alertness_cooldown (config w) /\
  in_bounds (current w).

(** At most one thread is inside, and the lock is held exactly when one
    is. *)
Definition mutex (m : machine) : Prop :=
  holders (fst m) = Nat.b2n (lock_held (snd m)).

(** The invariant behind whole snapshots. *)
Definition consistent (s0 : State) (m : machine) : Prop :=
  mutex m /\
  installed s0 (snd m) (current (snd m)) /\
  Forall (sound s0 (snd m)) (fst m).

(** The invariant behind the count of the scenario: the stress has gone
    down by one for every caller that has assigned its state. *)
Definition lossless (alert0 : Z) (callers : nat) (m : machine) : Prop :=
  mutex m /\
  boss_alertness (config (snd m)) = 0 /\
  boss_alert_level (current (snd m)) = alert0 /\
  stress_level (current (snd m)) =
    Z.max 0 (100 - Z.of_nat (count stored (fst m))) /\
  count breaking (fst m) = callers /\
  Forall (tidy alert0 (count stored (fst m)) (snd m)) (fst m).

(** The schedule that runs one [take_break] thread alone, letting the
    time of its sleep pass. *)
Definition solo_break_schedule (w : World) : list choice :=
  [Run O; Run O] ++ replicate (Z.to_nat (threshold_delay w)) Tick ++
  replicate 8 (Run O).

(** Three callers and two readers taking turns, with the alert level at
    its maximum so that every caller sleeps. *)
Definition demo_world : World :=
  mkWorld (Config_init 0 300)
          (mkStateManager (mkState 100 5 0) false true)
          1000 (fun n => Z.of_nat n * 37) O [].

Definition demo_pool : list thread :=
  [TbCall 1; GsCall; TbCall 1; GsCall; TbCall 1].

Definition demo_schedule : list choice :=
  concat (replicate 120 [Run 0%nat; Run 1%nat; Tick; Run 2%nat; Run 3%nat;
                        Run 4%nat]).

(** ** Vocabulary for the sequential properties *)

(** Two worlds that differ at most in the events logged so far. *)
Definition same_but_trace (w1 w2 : World) : Prop :=
  config w1 = config w2 /\ state_manager w1 = state_manager w2 /\
  clock w1 = clock w2 /\ entropy w1 = entropy w2 /\ cursor w1 = cursor w2.

(** The outcomes, managers and clocks a sequence of operations
    produces. *)
Definition observations (rs : list (outcome unit * World))
  : list (outcome unit * StateManager * Z) :=
  map (fun r => (fst r, state_manager (snd r), clock (snd r))) rs.



(** ** Vocabulary for arbitrary pools of threads *)


Definition pair_in_bounds (r : Z * Z) : Prop :=
  0 <= fst r <= 100 /\ 0 <= snd r <= 5.

(** What a thread's locals must satisfy for the counters to stay within
    their ranges: a non-negative amount still to be subtracted, a state
    about to be assigned that is within the ranges, counters read that
    are within them. *)
Definition modest (t : thread) : Prop :=
  match t with
  | TbCall d | TbHeld d | TbSleep d _ | TbDraw d | TbLower d _ => 0 <= d
  | TbRaise _ new_state | TbStore new_state | IsStore new_state
  | BdStore new_state | RsStore new_state => in_bounds new_state
  | TbRead2 stress | GsRead2 stress => 0 <= stress <= 100
  | TbExit result | TbDone result | GsExit result | GsDone result =>
      pair_in_bounds result
  | _ => True
  end.

(** How many seconds a schedule lets pass. *)
Definition ticks (schedule : list choice) : nat :=
  sum_list_with (fun c => match c with Tick => 1%nat | Run _ => O end)
    schedule.

(** A call that has returned. *)
Definition returned (t : thread) : bool :=
  match t with
  | TbDone _ | GsDone _ | RsDone | StDone => true
  | _ => false
  end.


Definition bounded (m : machine) : Prop :=
  in_bounds (current (snd m)) /\ Forall modest (fst m).

(** What holds of the machine while thread [i] sleeps the threshold
    delay, compared with the machine [m0] in which it fell asleep. *)
Definition stalled (i : nat) (d wake : Z) (m0 m : machine) : Prop :=
  mutex m /\
  fst m !! i = Some (TbSleep d wake) /\
  current (snd m) = current (snd m0) /\
  (forall j u, fst m !! j = Some u -> returned u = true -> u <> StDone ->
               fst m0 !! j = Some u).

(** ** Reading a response text back *)




(** The subscripts of the docstring: [response['content'][0][key]]. *)
Definition content_item (response : pyobj) (key : string) : option pyobj :=
  match getitem_key response "content" with
  | Some content =>
      match getitem_index content 0 with
      | Some item => getitem_key item key
      | None => None
      end
  | None => None
  end.

(** * Properties of the sequential code *)

Arguments randint_of : simpl never.

Lemma randint_of_range (a b raw : Z) :
  a <= b -> a <= randint_of a b raw <= b.
Proof.
  intros Hab. unfold randint_of.
  pose proof (Z.mod_pos_bound raw (b - a + 1)) as Hm. lia.
Qed.

Lemma next_draw_range (w : World) : 1 <= next_draw w <= 100.
Proof. unfold next_draw. apply randint_of_range. lia. Qed.

Lemma take_break_run (stress_decrease : Z) (w : World) :
  lock_free w ->
  take_break stress_decrease w =
    (Returned (stress_level (break_state stress_decrease w),
               boss_alert_level (break_state stress_decrease w)),
     break_world stress_decrease w).
Proof.
  destruct w as [cfg [s l r] c en cu tr]. unfold lock_free. simpl.
  intros ->.
  unfold take_break, break_world, break_events, break_state, escalates,
    threshold_delay, next_draw, current, with_lock, lock_acquire. simpl.
  destruct (boss_alert_level s =? BOSS_ALERT_MAX) eqn:Hmax;
    unfold bind, read_state, time_sleep, should_boss_alert_increase, bind,
      random_randint, read_config, with_stress_decrease, bind, time_time,
      ret, write_state, lock_release, log, advance, consume, set_manager;
    simpl; rewrite ?Hmax; simpl;
    destruct (randint_of 1 100 (en cu) <=? boss_alertness cfg); simpl;
    rewrite <- ?app_assoc, ?Z.add_0_r; reflexivity.
Qed.

Lemma get_state_run (w : World) :
  lock_free w ->
  get_state w =
    (Returned (stress_level (current w), boss_alert_level (current w)),
     mkWorld (config w) (state_manager w) (clock w) (entropy w) (cursor w)
             (trace w ++ [EvAcquire; EvRelease])).
Proof.
  destruct w as [cfg [s l r] c en cu tr]. unfold lock_free. simpl.
  intros ->.
  unfold get_state, with_lock, lock_acquire, bind, read_state, ret,
    lock_release, log, set_manager, current. simpl.
  rewrite <- app_assoc. reflexivity.
Qed.

Lemma stress_turn_run (w : World) :
  lock_free w ->
  _auto_increase_stress_turn w =
    (Returned tt, turn_world STRESS_INCREASE_INTERVAL with_stress_increase w).
Proof.
  destruct w as [cfg [s l r] c en cu tr]. unfold lock_free. simpl.
  intros ->.
  unfold _auto_increase_stress_turn, turn_world, bind, time_sleep, with_lock,
    lock_acquire, read_state, write_state, lock_release, log, advance,
    set_manager, current. simpl.
  rewrite <- !app_assoc. reflexivity.
Qed.

Lemma boss_turn_run (w : World) :
  lock_free w ->
  0 <= boss_alertness_cooldown (config w) ->
  _auto_decrease_boss_alert_turn w =
    (Returned tt,
     turn_world (boss_alertness_cooldown (config w)) with_boss_decrease w).
Proof.
  destruct w as [cfg [s l r] c en cu tr]. unfold lock_free. simpl.
  intros -> Hc.
  unfold _auto_decrease_boss_alert_turn, turn_world, bind, read_config,
    time_sleep, with_lock, lock_acquire, read_state, write_state,
    lock_release, log, advance, set_manager, current. simpl.
  destruct (boss_alertness_cooldown cfg <? 0) eqn:Hneg; [lia|]. simpl.
  rewrite <- !app_assoc. reflexivity.
Qed.

Lemma reset_run (w : World) :
  lock_free w -> reset w = (Returned tt, reset_world w).
Proof.
  destruct w as [cfg [s l r] c en cu tr]. unfold lock_free. simpl.
  intros ->.
  unfold reset, reset_world, bind, time_time, with_lock, lock_acquire,
    write_state, lock_release, log, set_manager. simpl.
  rewrite <- !app_assoc. reflexivity.
Qed.

Lemma break_state_bounds (d : Z) (w : World) :
  0 <= d -> in_bounds (current w) -> in_bounds (break_state d w).
Proof.
  unfold in_bounds, break_state, with_boss_increase, STRESS_MIN,
    BOSS_ALERT_MAX.
  intros Hd [Hs Ha].
  destruct (escalates w); simpl; lia.
Qed.

Lemma current_break_world (d : Z) (w : World) :
  current (break_world d w) = break_state d w.
Proof. reflexivity. Qed.

Lemma break_state_stress (d : Z) (w : World) :
  stress_level (break_state d w) = Z.max 0 (stress_level (current w) - d).
Proof. unfold break_state. destruct (escalates w); reflexivity. Qed.

Lemma break_state_alert (d : Z) (w : World) :
  boss_alert_level (break_state d w) =
    if escalates w then Z.min 5 (boss_alert_level (current w) + 1)
    else boss_alert_level (current w).
Proof. unfold break_state. destruct (escalates w); reflexivity. Qed.

Lemma break_state_time (d : Z) (w : World) :
  last_activity_time (break_state d w) = clock w + threshold_delay w.
Proof. unfold break_state. destruct (escalates w); reflexivity. Qed.

Lemma perform_steady (o : operation) (w : World) :
  amount_nonneg o -> steady w ->
  fst (perform o w) = Returned tt /\ steady (snd (perform o w)).
Proof.
  intros Ho (Hl & Hc & Hb). destruct o; simpl; unfold bind.
  - rewrite take_break_run by exact Hl. simpl.
    split; [reflexivity|]. repeat split; try assumption;
      apply (break_state_bounds stress_decrease w Ho Hb).
  - rewrite get_state_run by exact Hl. simpl.
    split; [reflexivity|]. repeat split; try assumption; apply Hb.
  - rewrite stress_turn_run by exact Hl. simpl.
    split; [reflexivity|]. split; [reflexivity|]. split; [assumption|].
    unfold in_bounds, with_stress_increase, STRESS_MAX in *; simpl.
    unfold current in *. lia.
  - rewrite boss_turn_run by assumption. simpl.
    split; [reflexivity|]. split; [reflexivity|]. split; [assumption|].
    unfold in_bounds, with_boss_decrease, BOSS_ALERT_MIN in *; simpl.
    unfold current in *. lia.
  - rewrite reset_run by exact Hl. simpl.
    split; [reflexivity|]. split; [reflexivity|]. split; [assumption|].
    unfold in_bounds, current; simpl. lia.
Qed.

Lemma history_steady (ops : list operation) :
  forall w, Forall amount_nonneg ops -> steady w ->
  Forall (fun r => fst r = Returned tt /\ in_bounds (current (snd r)))
         (history ops w).
Proof.
  induction ops as [|o ops IH]; intros w Hops Hw; simpl.
  - constructor.
  - inversion Hops as [|? ? Ho Hrest]; subst.
    destruct (perform_steady o w Ho Hw) as [Hret Hst].
    constructor.
    + split; [exact Hret|]. apply Hst.
    + apply IH; assumption.
Qed.

Lemma boot_steady (a c clock0 : Z) (en : nat -> Z) :
  steady (boot a c clock0 en) /\
  stress_level (current (boot a c clock0 en)) = 50 /\
  boss_alert_level (current (boot a c clock0 en)) = 0.
Proof.
  unfold steady, lock_free, in_bounds, boot, current. simpl.
  repeat split; lia.
Qed.

(** C1.  Bounds invariant.  After process start the state is (50, 0), and
    along any finite sequence of [take_break] calls with non-negative
    amounts, [get_state] calls, turns of the two background loops and
    [reset] calls, every operation returns and leaves a state with
    [0 <= stress_level <= 100] and [0 <= boss_alert_level <= 5]. *)
Theorem bounds_invariant (a c clock0 : Z) (en : nat -> Z)
    (ops : list operation) :
  Forall amount_nonneg ops ->
  let w0 := boot a c clock0 en in
  stress_level (current w0) = 50 /\ boss_alert_level (current w0) = 0 /\
  in_bounds (current w0) /\
  Forall (fun r => fst r = Returned tt /\ in_bounds (current (snd r)))
         (history ops w0).
Proof.
  intros Hops w0.
  destruct (boot_steady a c clock0 en) as [Hst [H50 H0]].
  split; [exact H50|]. split; [exact H0|]. split; [apply Hst|].
  apply history_steady; assumption.
Qed.

Lemma bounds_invariant_witness :
  let ops := [OpTakeBreak 70; OpIncreaseStress; OpTakeBreak 0;
              OpDecreaseAlert; OpReset; OpGetState] in
  Forall amount_nonneg ops /\
  Forall (fun r => fst r = Returned tt /\ in_bounds (current (snd r)))
         (history ops (boot 100 300 0 (fun _ => 7))).
Proof.
  split.
  - repeat constructor; simpl; lia.
  - apply (bounds_invariant 100 300 0 (fun _ => 7)).
    repeat constructor; simpl; lia.
Defined.

(** C4.  Transition definitions with saturation.  [with_stress_decrease]
    returns stress [max(0, stress - amount)] with the alert level
    unchanged, for every state and every integer amount;
    [with_boss_increase] returns alert [min(5, alert + 1)] with the stress
    unchanged; stress 5 lowered by 50 is 0 and alert 5 raised is 5. *)
Theorem transitions_saturate :
  (forall (s : State) (amount : Z) (w : World),
     with_stress_decrease s amount w =
       (Returned (mkState (Z.max 0 (stress_level s - amount))
                          (boss_alert_level s) (clock w)),
        log (EvTime (clock w)) w)) /\
  (forall s : State,
     boss_alert_level (with_boss_increase s) = Z.min 5 (boss_alert_level s + 1)
     /\ stress_level (with_boss_increase s) = stress_level s) /\
  (forall (alert t : Z) (w : World),
     fst (with_stress_decrease (mkState 5 alert t) 50 w) =
       Returned (mkState 0 alert (clock w))) /\
  (forall stress t : Z,
     boss_alert_level (with_boss_increase (mkState stress 5 t)) = 5).
Proof.
  repeat split.
Qed.

(** C5.  Probability boundary.  Whatever the source of randomness holds,
    the integer drawn lies in [1, 100] and
    [should_boss_alert_increase p] returns true exactly when it is at most
    [p]; with [p = 0] it returns false and with [p = 100] true. *)
Theorem probability_boundary (w : World) :
  1 <= next_draw w <= 100 /\
  (forall p : Z,
     should_boss_alert_increase p w =
       (Returned (next_draw w <=? p),
        log (EvRandint 1 100 (next_draw w)) (consume w)) /\
     (fst (should_boss_alert_increase p w) = Returned true <->
      next_draw w <= p)) /\
  fst (should_boss_alert_increase 0 w) = Returned false /\
  fst (should_boss_alert_increase 100 w) = Returned true.
Proof.
  pose proof (next_draw_range w) as Hr.
  assert (Hrun : forall p, should_boss_alert_increase p w =
            (Returned (next_draw w <=? p),
             log (EvRandint 1 100 (next_draw w)) (consume w)))
    by reflexivity.
  split; [exact Hr|]. split; [|split].
  - intros p. split; [apply Hrun|]. rewrite Hrun. simpl. split.
    + intros H. injection H as H. lia.
    + intros H. f_equal. lia.
  - rewrite Hrun. simpl. f_equal. lia.
  - rewrite Hrun. simpl. f_equal. lia.
Qed.

(** Every integer of [1, 100] is drawn from some source of randomness. *)
Lemma next_draw_onto (r : Z) (w : World) :
  1 <= r <= 100 ->
  next_draw (mkWorld (config w) (state_manager w) (clock w)
                     (fun _ => r - 1) (cursor w) (trace w)) = r.
Proof.
  intros Hr. unfold next_draw, randint_of. simpl.
  rewrite Z.mod_small by lia. lia.
Qed.

(** C3.  End-to-end scenario.  From (50, 0), [take_break(20)] whose
    escalation decision is false returns (30, 0); then [take_break(40)]
    whose decision is true returns (0, 1); then [get_state()] returns
    (0, 1) and leaves the manager as it was. *)
Theorem end_to_end_scenario (w : World) :
  let r1 := take_break 20 w in
  let r2 := take_break 40 (snd r1) in
  let r3 := get_state (snd r2) in
  lock_free w ->
  stress_level (current w) = 50 ->
  boss_alert_level (current w) = 0 ->
  escalates w = false ->
  escalates (snd r1) = true ->
  fst r1 = Returned (30, 0) /\
  fst r2 = Returned (0, 1) /\
  fst r3 = Returned (0, 1) /\
  state_manager (snd r3) = state_manager (snd r2).
Proof.
  intros r1 r2 r3 Hl Hs Ha. subst r1 r2 r3.
  rewrite (take_break_run 20 w Hl). cbn [fst snd]. intros He1 He2.
  rewrite (take_break_run 40 (break_world 20 w) eq_refl). cbn [fst snd].
  rewrite (get_state_run (break_world 40 (break_world 20 w)) eq_refl).
  cbn [fst snd state_manager]. rewrite !current_break_world.
  rewrite !break_state_stress, !break_state_alert, !current_break_world.
  rewrite !break_state_stress, !break_state_alert, He1, He2, Hs, Ha.
  repeat split.
Qed.

Lemma end_to_end_scenario_witness :
  let w := boot 50 300 1000 (fun n => match n with O => 50 | _ => 49 end) in
  fst (take_break 20 w) = Returned (30, 0) /\
  fst (take_break 40 (snd (take_break 20 w))) = Returned (0, 1) /\
  fst (get_state (snd (take_break 40 (snd (take_break 20 w))))) =
    Returned (0, 1) /\
  state_manager
    (snd (get_state (snd (take_break 40 (snd (take_break 20 w)))))) =
  state_manager (snd (take_break 40 (snd (take_break 20 w)))).
Proof.
  apply (end_to_end_scenario
           (boot 50 300 1000 (fun n => match n with O => 50 | _ => 49 end)));
    reflexivity.
Defined.

(** C7.  Threshold delay condition.  A call of [take_break] made while the
    lock is free returns; between taking and releasing the lock it sleeps
    20 seconds exactly when the alert level it finds is 5, and it sleeps
    before it draws the decision and reads the clock for the new state.
    [get_state] takes and releases the lock and does nothing else: no
    sleep, the manager and the clock as before.  Among other threads the
    test is made on the state found once the lock is held, and the sleeper
    does not move until the 20 seconds have passed. *)
Theorem threshold_delay_condition (stress_decrease : Z) (w : World) :
  lock_free w ->
  (exists result w',
     take_break stress_decrease w = (Returned result, w') /\
     trace w' =
       trace w ++ [EvAcquire] ++
       (if boss_alert_level (current w) =? 5 then [EvSleep 20] else []) ++
       [EvRandint 1 100 (next_draw w); EvTime (clock w');
        EvStore (current w'); EvRelease] /\
     clock w' =
       clock w + (if boss_alert_level (current w) =? 5 then 20 else 0) /\
     (clock w' - clock w = 20 <-> boss_alert_level (current w) = 5) /\
     last_activity_time (current w') = clock w') /\
  (exists w',
     get_state w =
       (Returned (stress_level (current w), boss_alert_level (current w)),
        w') /\
     state_manager w' = state_manager w /\
     clock w' = clock w /\
     trace w' = trace w ++ [EvAcquire; EvRelease]) /\
  (forall (d : Z) (w1 : World),
     step_thread (TbHeld d) w1 =
       Some (if boss_alert_level (current w1) =? 5
             then (TbSleep d (clock w1 + 20), log (EvSleep 20) w1)
             else (TbDraw d, w1))) /\
  (forall (d wake : Z) (w1 : World),
     clock w1 < wake -> step_thread (TbSleep d wake) w1 = None).
Proof.
  intros Hl. split; [|split; [|split]].
  - eexists. exists (break_world stress_decrease w).
    split; [apply take_break_run; exact Hl|].
    cbn [trace clock break_world]. rewrite current_break_world.
    rewrite break_state_time.
    unfold break_events, threshold_delay, BOSS_ALERT_MAX, BOSS_ALERT_DELAY.
    repeat split; try reflexivity;
      destruct (boss_alert_level (current w) =? 5) eqn:Hmax; lia.
  - eexists. split; [apply get_state_run; exact Hl|].
    repeat split.
  - intros d w1. unfold step_thread, go, bind, read_state, current.
    change BOSS_ALERT_MAX with 5.
    destruct (boss_alert_level (_state (state_manager w1)) =? 5);
      reflexivity.
  - intros d wake w1 Hlt. unfold step_thread, go, woken.
    destruct (wake <=? clock w1) eqn:Hw; [lia|reflexivity].
Qed.

Lemma threshold_delay_condition_witness :
  let w := mkWorld (Config_init 50 300)
                   (mkStateManager (mkState 40 5 0) false true)
                   100 (fun _ => 0) O [] in
  exists result w',
    take_break 10 w = (Returned result, w') /\
    trace w' =
      trace w ++ [EvAcquire] ++
      (if boss_alert_level (current w) =? 5 then [EvSleep 20] else []) ++
      [EvRandint 1 100 (next_draw w); EvTime (clock w');
       EvStore (current w'); EvRelease] /\
    clock w' =
      clock w + (if boss_alert_level (current w) =? 5 then 20 else 0) /\
    (clock w' - clock w = 20 <-> boss_alert_level (current w) = 5) /\
    last_activity_time (current w') = clock w'.
Proof.
  intros w.
  exact (proj1 (threshold_delay_condition 10 w eq_refl)).
Defined.

(** C2, as the code has it.  [take_break] rejects no amount and adjusts
    none: for every negative amount a call made while the lock is free
    raises nothing and returns the counters of the state it has installed,
    whose stress is the one [with_stress_decrease] computes from the
    current state and the amount as passed. *)
Theorem negative_amount_accepted (amount : Z) (w : World) :
  amount < 0 ->
  lock_free w ->
  exists w',
    take_break amount w = (Returned (snapshot (current w')), w') /\
    (forall e, fst (take_break amount w) <> Raised e) /\
    (forall w1, exists s',
       fst (with_stress_decrease (current w) amount w1) = Returned s' /\
       stress_level (current w') = stress_level s').
Proof.
  intros _ Hl. exists (break_world amount w).
  rewrite (take_break_run amount w Hl), current_break_world.
  split; [reflexivity|]. split; [intros e; discriminate|].
  intros w1. eexists. split; [reflexivity|]. apply break_state_stress.
Qed.

Lemma negative_amount_accepted_witness :
  exists w',
    take_break (-60) (boot 50 300 0 (fun _ => 99)) =
      (Returned (snapshot (current w')), w') /\
    (forall e,
       fst (take_break (-60) (boot 50 300 0 (fun _ => 99))) <> Raised e) /\
    (forall w1, exists s',
       fst (with_stress_decrease (current (boot 50 300 0 (fun _ => 99)))
              (-60) w1) = Returned s' /\
       stress_level (current w') = stress_level s').
Proof.
  apply (negative_amount_accepted (-60) (boot 50 300 0 (fun _ => 99)));
    [lia | reflexivity].
Defined.

(** C2, as stated, fails: right after process start [take_break(-60)]
    raises nothing and returns (110, 0). *)
Lemma negative_amount_not_rejected :
  let w := boot 50 300 0 (fun _ => 99) in
  -60 < 0 /\ lock_free w /\
  fst (take_break (-60) w) = Returned (110, 0) /\
  ~ (exists e, fst (take_break (-60) w) = Raised e).
Proof.
  repeat split; try reflexivity. intros [e He]. discriminate He.
Qed.

(** C10.  No upper clamp on the caller-triggered decrease.  For every
    state and every integer amount [with_stress_decrease] gives stress
    [max(0, stress - amount)], and so does [take_break]; right after
    process start (stress 50) [take_break(-60)] returns and installs a
    state whose stress is 110. *)
Theorem decrease_has_no_upper_clamp :
  (forall (s : State) (amount : Z) (w : World),
     exists s', fst (with_stress_decrease s amount w) = Returned s' /\
       stress_level s' = Z.max 0 (stress_level s - amount)) /\
  (forall (a c clock0 : Z) (en : nat -> Z),
     let w := boot a c clock0 en in
     exists alert w',
       take_break (-60) w = (Returned (110, alert), w') /\
       stress_level (current w') = 110 /\
       100 < stress_level (current w')).
Proof.
  split.
  - intros s amount w. eexists. split; reflexivity.
  - intros a c clock0 en w.
    assert (Hl : lock_free w) by reflexivity.
    exists (boss_alert_level (break_state (-60) w)), (break_world (-60) w).
    rewrite (take_break_run (-60) w Hl), current_break_world.
    rewrite break_state_stress.
    repeat split.
Qed.

(** C6, as the code has it.  [with_stress_decrease] stamps the state with
    the time of the call whether or not the stress changes, and the other
    three transitions carry [last_activity_time] forward; so the state
    [take_break] installs carries the time at which it was computed. *)
Theorem last_activity_time_policy :
  (forall (s : State) (amount : Z) (w : World),
     exists s', fst (with_stress_decrease s amount w) = Returned s' /\
       last_activity_time s' = clock w) /\
  (forall s : State,
     last_activity_time (with_boss_increase s) = last_activity_time s /\
     last_activity_time (with_boss_decrease s) = last_activity_time s /\
     last_activity_time (with_stress_increase s) = last_activity_time s) /\
  (forall (amount : Z) (w : World),
     lock_free w ->
     last_activity_time (current (snd (take_break amount w))) =
       clock (snd (take_break amount w))).
Proof.
  split; [|split].
  - intros s amount w. eexists. split; reflexivity.
  - intros s. repeat split.
  - intros amount w Hl. rewrite (take_break_run amount w Hl).
    cbn [snd]. rewrite current_break_world. apply break_state_time.
Qed.

Lemma last_activity_time_policy_witness :
  let w := mkWorld (Config_init 0 300)
                   (mkStateManager (mkState 0 0 0) false true)
                   7 (fun _ => 0) O [] in
  last_activity_time (current (snd (take_break 10 w))) =
    clock (snd (take_break 10 w)).
Proof.
  intros w.
  exact (proj2 (proj2 last_activity_time_policy) 10 w eq_refl).
Defined.

(** C6, as stated, fails: a break that leaves the stress at 0 still
    replaces [last_activity_time] 0 by the time of the call, 7. *)
Lemma unchanged_stress_still_stamped :
  let w := mkWorld (Config_init 0 300)
                   (mkStateManager (mkState 0 0 0) false true)
                   7 (fun _ => 0) O [] in
  let w' := snd (take_break 10 w) in
  fst (take_break 10 w) = Returned (0, 0) /\
  stress_level (current w') = stress_level (current w) /\
  last_activity_time (current w) = 0 /\
  last_activity_time (current w') = 7 /\
  last_activity_time (current w') <> last_activity_time (current w).
Proof.
  repeat split. discriminate.
Qed.

Lemma iter_stress_increase (n : nat) (s : State) :
  stress_level s <= 100 ->
  Nat.iter n with_stress_increase s =
    mkState (Z.min 100 (stress_level s + Z.of_nat n)) (boss_alert_level s)
            (last_activity_time s).
Proof.
  intros Hs. induction n as [|n IH].
  - destruct s as [st al t]. simpl in *. f_equal. lia.
  - rewrite Nat.iter_succ, IH. unfold with_stress_increase; simpl.
    unfold STRESS_MAX. f_equal. lia.
Qed.

Lemma turn_world_iter (seconds : Z) (f : State -> State) (n : nat) (w : World) :
  let w' := Nat.iter n (turn_world seconds f) w in
  current w' = Nat.iter n f (current w) /\
  clock w' = clock w + seconds * Z.of_nat n /\
  (lock_free w -> lock_free w') /\
  _running (state_manager w') = _running (state_manager w).
Proof.
  induction n as [|n IH].
  - simpl. repeat split; try tauto. lia.
  - rewrite Nat.iter_succ, Nat2Z.inj_succ.
    set (w1 := Nat.iter n (turn_world seconds f) w) in *.
    destruct IH as (Hc & Hk & Hl & Hr).
    unfold current in *.
    cbn [turn_world state_manager _state _running clock].
    unfold current. rewrite Hc, Hk, Hr.
    repeat split. lia.
Qed.

Lemma while_running_turns (n : nat) (turn : M unit) (next : World -> World) :
  (forall w, lock_free w -> turn w = (Returned tt, next w)) ->
  (forall w, lock_free w -> lock_free (next w)) ->
  (forall w, _running (state_manager (next w)) = _running (state_manager w)) ->
  forall w, lock_free w -> _running (state_manager w) = true ->
  while_running n turn w = (Returned false, Nat.iter n next w).
Proof.
  intros Hturn Hfree Hrun. induction n as [|n IH]; intros w Hl Hr.
  - reflexivity.
  - cbn [while_running]. unfold bind at 1, read_running. rewrite Hr.
    unfold bind. rewrite (Hturn w Hl), IH.
    + rewrite Nat.iter_succ_r. reflexivity.
    + apply Hfree, Hl.
    + rewrite Hrun. exact Hr.
Qed.

(** C9.  Decay iteration.  From a state with stress 90,
    [with_stress_increase] applied N times gives stress [min(100, 90 + N)]
    with the alert level and [last_activity_time] as they were, for every
    N; and N turns of the loop of [_auto_increase_stress], undisturbed,
    leave exactly that state, 60 N seconds later. *)
Theorem decay_iteration (N : nat) (w : World) :
  lock_free w ->
  _running (state_manager w) = true ->
  stress_level (current w) = 90 ->
  Nat.iter N with_stress_increase (current w) =
    mkState (Z.min 100 (90 + Z.of_nat N)) (boss_alert_level (current w))
            (last_activity_time (current w)) /\
  exists w',
    _auto_increase_stress N w = (Returned false, w') /\
    current w' = Nat.iter N with_stress_increase (current w) /\
    clock w' = clock w + 60 * Z.of_nat N.
Proof.
  intros Hl Hr Hs. split.
  - rewrite iter_stress_increase by lia. rewrite Hs. reflexivity.
  - exists (Nat.iter N (turn_world STRESS_INCREASE_INTERVAL
                                   with_stress_increase) w).
    split; [|split].
    + apply while_running_turns; try assumption.
      * intros w1 Hl1. apply stress_turn_run, Hl1.
      * reflexivity.
      * reflexivity.
    + apply turn_world_iter.
    + apply turn_world_iter.
Qed.

Lemma decay_iteration_witness :
  let w := mkWorld (Config_init 50 300)
                   (mkStateManager (mkState 90 2 17) false true)
                   1000 (fun _ => 0) O [] in
  Nat.iter 25 with_stress_increase (current w) = mkState 100 2 17 /\
  exists w',
    _auto_increase_stress 25 w = (Returned false, w') /\
    current w' = Nat.iter 25 with_stress_increase (current w) /\
    clock w' = clock w + 60 * Z.of_nat 25.
Proof.
  intros w. exact (decay_iteration 25 w eq_refl eq_refl eq_refl).
Defined.

(** * Properties of the interleaved threads *)

(** ** What one statement does to the world *)

Ltac unfold_step H :=
  unfold step_thread, go in H;
  unfold bind, ret, id, lock_acquire, lock_release, read_state, write_state,
    read_running, write_running, read_config, time_time, sleep_until, woken,
    should_boss_alert_increase, with_stress_decrease, random_randint, bind,
    ret, time_time, log, set_manager, consume in H;
  simpl in H;
  repeat match type of H with
         | context [if ?c then _ else _] => destruct c eqn:?; simpl in H
         end;
  try discriminate H;
  try (injection H as <- <-).

(** The lock goes with the thread that is inside; nothing else changes
    it. *)
Lemma step_thread_lock (t t' : thread) (w w' : World) :
  step_thread t w = Some (t', w') ->
  (inside t = true -> lock_held w = true) ->
  lock_held w' = (if inside t then inside t' else inside t' || lock_held w) /\
  (inside t = false -> inside t' = true -> lock_held w = false).
Proof.
  intros H Hin. unfold lock_held in *.
  destruct t; simpl in Hin; first [specialize (Hin eq_refl) | clear Hin];
    unfold_step H; simpl; split; intros;
    try reflexivity; try discriminate; try congruence.
Qed.

(** A statement leaves the configuration, the clock and the source of
    randomness' contents alone, only adds to the trace, and replaces the
    state only from inside the lock, logging the state it installs. *)
Lemma step_thread_frame (t t' : thread) (w w' : World) :
  step_thread t w = Some (t', w') ->
  config w' = config w /\
  clock w' = clock w /\
  (exists evs, trace w' = trace w ++ evs) /\
  (current w' = current w \/
   (inside t = true /\ In (EvStore (current w')) (trace w'))).
Proof.
  intros H. unfold current.
  destruct t; unfold_step H; simpl;
    (split; [reflexivity|]); (split; [reflexivity|]);
    (split; [first [ by (exists []; rewrite app_nil_r)
                   | by eexists
                   | by (rewrite <- app_assoc; eexists) ] |]);
    first [ by left
          | right; split; [reflexivity|];
            apply in_or_app; right; left; reflexivity ].
Qed.

(** ** Counting over a pool *)

Section Counting.
Context {A : Type} (f : A -> nat).

Lemma sum_list_with_insert (l : list A) (i : nat) (x y : A) :
  l !! i = Some x ->
  (sum_list_with f (<[i:=y]> l) + f x = sum_list_with f l + f y)%nat.
Proof.
  revert i. induction l as [|a l IH]; intros [|i] H; simpl in *;
    try discriminate.
  - injection H as ->. lia.
  - specialize (IH i H). lia.
Qed.

Lemma sum_list_with_lookup (l : list A) (i : nat) (x : A) :
  l !! i = Some x -> (f x <= sum_list_with f l)%nat.
Proof.
  revert i. induction l as [|a l IH]; intros [|i] H; simpl in *;
    try discriminate.
  - injection H as ->. lia.
  - specialize (IH i H). lia.
Qed.

Lemma sum_list_with_lookup2 (l : list A) (i j : nat) (x y : A) :
  i <> j -> l !! i = Some x -> l !! j = Some y ->
  (f x + f y <= sum_list_with f l)%nat.
Proof.
  revert i j. induction l as [|a l IH]; intros [|i] [|j] Hij Hi Hj;
    simpl in *; try discriminate; try congruence.
  - injection Hi as ->. pose proof (sum_list_with_lookup l j y Hj). lia.
  - injection Hj as ->. pose proof (sum_list_with_lookup l i x Hi). lia.
  - assert (i <> j) by congruence. specialize (IH i j H Hi Hj). lia.
Qed.

Lemma sum_list_with_le (g : A -> nat) (l : list A) :
  (forall x, (f x <= g x)%nat) ->
  (sum_list_with f l <= sum_list_with g l)%nat.
Proof.
  intros Hfg. induction l as [|a l IH]; simpl; [lia|].
  specialize (Hfg a). lia.
Qed.
End Counting.

Lemma Forall_insert_others {A} (P Q : A -> Prop) (l : list A) (i : nat)
    (y : A) :
  Forall P l ->
  (forall j x, j <> i -> l !! j = Some x -> P x -> Q x) ->
  Q y ->
  Forall Q (<[i:=y]> l).
Proof.
  intros HP Hothers Hy. apply Forall_lookup. intros j x Hj.
  destruct (decide (j = i)) as [->|Hne].
  - destruct (decide (i < length l)%nat) as [Hlt|Hge].
    + rewrite list_lookup_insert_eq in Hj by exact Hlt. congruence.
    + rewrite list_insert_ge in Hj by lia.
      apply lookup_lt_Some in Hj. lia.
  - rewrite list_lookup_insert_ne in Hj by congruence.
    apply (Hothers j x Hne Hj).
    eapply Forall_lookup_1; eassumption.
Qed.

(** ** Mutual exclusion *)

Lemma mutex_holder (pool : list thread) (w : World) (i : nat) (t : thread) :
  mutex (pool, w) -> pool !! i = Some t -> inside t = true ->
  lock_held w = true /\
  forall j u, j <> i -> pool !! j = Some u -> inside u = false.
Proof.
  unfold mutex, holders. simpl. intros Hm Hi Hin. split.
  - pose proof (sum_list_with_lookup (fun t => Nat.b2n (inside t)) pool i t Hi)
      as Hle.
    cbv beta in Hle. rewrite Hin in Hle. simpl in Hle.
    destruct (lock_held w); [reflexivity|simpl in Hm; lia].
  - intros j u Hne Hj.
    pose proof (sum_list_with_lookup2 (fun t => Nat.b2n (inside t))
                  pool i j t u (not_eq_sym Hne) Hi Hj) as Hle.
    cbv beta in Hle. rewrite Hin in Hle. simpl in Hle.
    destruct (inside u); [|reflexivity].
    destruct (lock_held w); simpl in *; lia.
Qed.

Lemma mutex_free (pool : list thread) (w : World) (i : nat) (t : thread) :
  mutex (pool, w) -> lock_held w = false -> pool !! i = Some t ->
  inside t = false.
Proof.
  unfold mutex, holders. simpl. intros Hm Hl Hi.
  pose proof (sum_list_with_lookup (fun t => Nat.b2n (inside t)) pool i t Hi)
    as Hle.
  cbv beta in Hle. rewrite Hl in Hm. simpl in Hm.
  destruct (inside t); simpl in *; lia.
Qed.

Lemma mutex_run (pool : list thread) (w w' : World) (i : nat)
    (t t' : thread) :
  mutex (pool, w) -> pool !! i = Some t ->
  step_thread t w = Some (t', w') ->
  mutex (<[i:=t']> pool, w').
Proof.
  intros Hm Hi Hstep.
  assert (Hin : inside t = true -> lock_held w = true).
  { intros Hin. exact (proj1 (mutex_holder pool w i t Hm Hi Hin)). }
  destruct (step_thread_lock t t' w w' Hstep Hin) as [Hl' Hacq].
  unfold mutex, holders in *. simpl in *.
  pose proof (sum_list_with_insert (fun t => Nat.b2n (inside t))
                pool i t t' Hi) as Hsum.
  cbv beta in Hsum. rewrite Hl'.
  destruct (inside t) eqn:Et, (inside t') eqn:Et'; simpl in *.
  - rewrite Hin in Hm by reflexivity. simpl in Hm. lia.
  - rewrite Hin in Hm by reflexivity. simpl in Hm. lia.
  - rewrite Hacq in Hm by reflexivity. simpl in Hm. lia.
  - lia.
Qed.

Lemma mutex_step (m : machine) (c : choice) : mutex m -> mutex (step m c).
Proof.
  destruct m as [pool w]. intros Hm. destruct c as [|i]; simpl.
  - exact Hm.
  - destruct (pool !! i) as [t|] eqn:Hi; [|exact Hm].
    destruct (step_thread t w) as [[t' w']|] eqn:Hstep; [|exact Hm].
    eapply mutex_run; eassumption.
Qed.

Lemma exec_invariant (I : machine -> Prop) :
  (forall m c, I m -> I (step m c)) ->
  forall schedule m, I m -> I (exec schedule m).
Proof.
  intros Hstep schedule. unfold exec.
  induction schedule as [|c schedule IH]; intros m Hm; simpl.
  - exact Hm.
  - apply IH, Hstep, Hm.
Qed.

Lemma fresh_mutex (pool : list thread) (w : World) :
  Forall (fun t => fresh t = true) pool -> lock_free w -> mutex (pool, w).
Proof.
  unfold mutex, holders, lock_held, lock_free. simpl. intros Hf ->. simpl.
  induction Hf as [|t pool Ht _ IH]; simpl; [reflexivity|].
  rewrite IH. destruct t; simpl in *; try discriminate; reflexivity.
Qed.

(** ** Snapshots are never torn *)

Lemma installed_mono (s0 s : State) (w w' : World) :
  (exists evs, trace w' = trace w ++ evs) ->
  installed s0 w s -> installed s0 w' s.
Proof.
  intros [evs Htr] [H|H]; [left; exact H|right].
  rewrite Htr. apply in_or_app. left. exact H.
Qed.

Lemma sound_kept (s0 : State) (w w' : World) (u : thread) :
  (exists evs, trace w' = trace w ++ evs) ->
  inside u = false \/ current w' = current w ->
  sound s0 w u -> sound s0 w' u.
Proof.
  intros Htr Hcase Hu. destruct Hcase as [Hout|Hcur].
  - destruct u; simpl in *; try discriminate; try exact I;
      destruct Hu as (s & Hs & Hr); exists s;
      (split; [eapply installed_mono; eassumption|exact Hr]).
  - destruct u; simpl in *; rewrite ?Hcur; try exact Hu;
      destruct Hu as (s & Hs & Hr); exists s;
      (split; [eapply installed_mono; eassumption|exact Hr]).
Qed.

Lemma step_thread_sound (s0 : State) (t t' : thread) (w w' : World) :
  step_thread t w = Some (t', w') ->
  installed s0 w (current w) ->
  sound s0 w t -> sound s0 w' t'.
Proof.
  intros H Hcur Ht. unfold current, snapshot in *.
  destruct t; simpl in Ht; unfold_step H; simpl; subst;
    try exact I; try reflexivity.
  all: exists (_state (state_manager w)); split; try reflexivity;
    apply (installed_mono _ _ w); [simpl; eexists; reflexivity | exact Hcur].
Qed.

Lemma consistent_step (s0 : State) (m : machine) (c : choice) :
  consistent s0 m -> consistent s0 (step m c).
Proof.
  destruct m as [pool w]. intros (Hm & Hcur & Hpool).
  split; [apply mutex_step, Hm|].
  destruct c as [|i]; simpl.
  - split; [exact Hcur|]. eapply Forall_impl; [exact Hpool|].
    intros u Hu. eapply sound_kept; [| |exact Hu].
    + exists []. simpl. by rewrite app_nil_r.
    + right. reflexivity.
  - destruct (pool !! i) as [t|] eqn:Hi; [|split; assumption].
    destruct (step_thread t w) as [[t' w']|] eqn:Hstep; [|split; assumption].
    destruct (step_thread_frame t t' w w' Hstep) as (_ & _ & Htr & Hch).
    simpl in *. split.
    + destruct Hch as [Hsame|[_ Hin]].
      * rewrite Hsame. eapply installed_mono; eassumption.
      * right. exact Hin.
    + apply Forall_insert_others with (P := sound s0 w).
      * exact Hpool.
      * intros j u Hne Hj Hu. eapply sound_kept; [exact Htr| |exact Hu].
        destruct Hch as [Hsame|[Hin _]]; [right; exact Hsame|left].
        exact (proj2 (mutex_holder pool w i t Hm Hi Hin) j u Hne Hj).
      * eapply step_thread_sound; try eassumption.
        eapply Forall_lookup_1; eassumption.
Qed.

Lemma fresh_consistent (pool : list thread) (w : World) :
  Forall (fun t => fresh t = true) pool -> lock_free w ->
  consistent (current w) (pool, w).
Proof.
  intros Hf Hl. split; [apply fresh_mutex; assumption|]. split.
  - left. reflexivity.
  - simpl. eapply Forall_impl; [exact Hf|].
    intros t Ht. destruct t; simpl in *; try discriminate; exact I.
Qed.

(** Under any schedule, every pair a [get_state] or [take_break] thread
    has returned is the pair of counters of a single installed state. *)
Lemma snapshots_whole (pool : list thread) (w : World)
    (schedule : list choice) :
  Forall (fun t => fresh t = true) pool -> lock_free w ->
  let m' := exec schedule (pool, w) in
  forall i result,
    fst m' !! i = Some (GsDone result) \/ fst m' !! i = Some (TbDone result) ->
    exists s, installed (current w) (snd m') s /\ result = snapshot s.
Proof.
  intros Hf Hl m' i result Hi.
  assert (Hc : consistent (current w) m').
  { apply exec_invariant; [apply consistent_step|].
    apply fresh_consistent; assumption. }
  destruct Hc as (_ & _ & Hpool).
  destruct Hi as [Hi|Hi];
    apply (Forall_lookup_1 _ _ _ _ Hpool Hi).
Qed.

(** ** No update is lost *)

Lemma tidy_kept (alert0 : Z) (n n' : nat) (w w' : World) (u : thread) :
  (n <= n')%nat ->
  inside u = false \/ current w' = current w ->
  tidy alert0 n w u -> tidy alert0 n' w' u.
Proof.
  intros Hn Hcase Hu. destruct Hcase as [Hout|Hcur].
  - destruct u; simpl in *; try discriminate; try exact Hu;
      destruct Hu as (k & Hk & Hr); exists k; (split; [lia|exact Hr]).
  - destruct u; simpl in *; rewrite ?Hcur; try exact Hu;
      destruct Hu as (k & Hk & Hr); exists k; (split; [lia|exact Hr]).
Qed.

Lemma step_thread_tidy (alert0 : Z) (n : nat) (t t' : thread) (w w' : World) :
  step_thread t w = Some (t', w') ->
  (inside t = true -> lock_held w = true) ->
  boss_alertness (config w) = 0 ->
  boss_alert_level (current w) = alert0 ->
  stress_level (current w) = Z.max 0 (100 - Z.of_nat n) ->
  tidy alert0 n w t ->
  (forall n', (n <= n')%nat -> tidy alert0 n' w' t') /\
  boss_alert_level (current w') = alert0 /\
  breaking t' = breaking t /\
  ((stored t' = stored t /\ current w' = current w) \/
   (stored t = false /\ stored t' = true /\
    stress_level (current w') = Z.max 0 (stress_level (current w) - 1))).
Proof.
  intros H Hin Hp Ha Hs Ht.
  pose proof (randint_of_range 1 100 (entropy w (cursor w)) ltac:(lia)) as Hr.
  destruct t; simpl in Ht, Hin; try contradiction;
    first [specialize (Hin eq_refl) | clear Hin];
    unfold current, snapshot, lock_held in *;
    unfold_step H; simpl; try congruence.
  all: repeat match goal with
              | H : _ /\ _ |- _ => destruct H
              end.
  all: split; [intros n' Hn'; simpl; unfold current, STRESS_MIN; simpl
              |].
  all: try (exists n; (split; [lia|congruence])).
  all: try (split; [try assumption; try congruence|];
            (split; [reflexivity|])).
  all: try discriminate; subst; unfold snapshot; simpl;
    repeat match goal with
           | |- _ /\ _ => split
           end;
    try reflexivity; try assumption; try congruence;
    try (rewrite Hp; apply Z.leb_gt; lia);
    try (left; split; reflexivity);
    try (right; repeat split; assumption).
Qed.

Lemma lossless_step (alert0 : Z) (callers : nat) (m : machine) (c : choice) :
  lossless alert0 callers m -> lossless alert0 callers (step m c).
Proof.
  destruct m as [pool w]. intros (Hm & Hp & Ha & Hs & Hn & Hpool).
  pose proof (mutex_step (pool, w) c Hm) as Hm'.
  destruct c as [|i]; simpl in *.
  - repeat split; assumption.
  - destruct (pool !! i) as [t|] eqn:Hi; [|repeat split; assumption].
    destruct (step_thread t w) as [[t' w']|] eqn:Hstep;
      [|repeat split; assumption].
    assert (Hin : inside t = true -> lock_held w = true).
    { intros Hin. exact (proj1 (mutex_holder pool w i t Hm Hi Hin)). }
    assert (Ht : tidy alert0 (count stored pool) w t).
    { eapply Forall_lookup_1; eassumption. }
    destruct (step_thread_frame t t' w w' Hstep) as (Hcfg & _ & _ & Hch).
    destruct (step_thread_tidy alert0 (count stored pool) t t' w w'
                Hstep Hin Hp Ha Hs Ht) as (Ht' & Ha' & Hb & Hcase).
    pose proof (sum_list_with_insert (fun t => Nat.b2n (stored t))
                  pool i t t' Hi) as Hst.
    pose proof (sum_list_with_insert (fun t => Nat.b2n (breaking t))
                  pool i t t' Hi) as Hbr.
    cbv beta in Hst, Hbr.
    change (sum_list_with (fun t => Nat.b2n (stored t))) with (count stored)
      in Hst.
    change (sum_list_with (fun t => Nat.b2n (breaking t)))
      with (count breaking) in Hbr.
    assert (Hmono : (count stored pool <= count stored (<[i:=t']> pool))%nat).
    { destruct Hcase as [[E _]|(E1 & E2 & _)].
      - rewrite E in Hst. lia.
      - rewrite E1, E2 in Hst. simpl in Hst. lia. }
    unfold lossless. simpl.
    split; [exact Hm'|]. split; [rewrite Hcfg; exact Hp|].
    split; [exact Ha'|].
    split; [|split].
    + destruct Hcase as [[E Ecur]|(E1 & E2 & E3)].
      * rewrite E in Hst. rewrite Ecur, Hs. f_equal. lia.
      * rewrite E1, E2 in Hst. simpl in Hst. rewrite E3, Hs. lia.
    + rewrite Hb in Hbr. lia.
    + apply Forall_insert_others with (P := tidy alert0 (count stored pool) w).
      * exact Hpool.
      * intros j u Hne Hj Hu. eapply tidy_kept; [exact Hmono| |exact Hu].
        destruct Hch as [Hsame|[Hins _]]; [right; exact Hsame|left].
        exact (proj2 (mutex_holder pool w i t Hm Hi Hins) j u Hne Hj).
      * apply Ht', Hmono.
Qed.

Lemma callers_lossless (pool : list thread) (w : World) :
  Forall (fun t => t = TbCall 1 \/ t = GsCall) pool ->
  lock_free w ->
  boss_alertness (config w) = 0 ->
  stress_level (current w) = 100 ->
  lossless (boss_alert_level (current w)) (count breaking pool) (pool, w).
Proof.
  intros Hpool Hl Hp Hs.
  assert (Hzero : count stored pool = O).
  { unfold count. induction Hpool as [|t pool [->| ->] _ IH]; simpl;
      [reflexivity| |]; exact IH. }
  assert (Hfresh : Forall (fun t => fresh t = true) pool).
  { eapply Forall_impl; [exact Hpool|]. intros t [->| ->]; reflexivity. }
  split; [apply fresh_mutex; assumption|].
  simpl. rewrite Hzero. repeat split; try assumption.
  eapply Forall_impl; [exact Hpool|]. intros t [->| ->]; simpl; reflexivity.
Qed.

Lemma stored_breaking (t : thread) : (Nat.b2n (stored t) <= Nat.b2n (breaking t))%nat.
Proof. destruct t; simpl; lia. Qed.

Lemma returned_all_stored (pool : list thread) :
  breaks_returned pool -> count stored pool = count breaking pool.
Proof.
  unfold breaks_returned, count. intros H.
  induction H as [|t pool Ht _ IH]; simpl; [reflexivity|].
  rewrite IH. f_equal.
  destruct (breaking t) eqn:Hb.
  - destruct (Ht eq_refl) as [r ->]. reflexivity.
  - pose proof (stored_breaking t) as Hle. rewrite Hb in Hle.
    destruct (stored t); simpl in *; [lia|reflexivity].
Qed.

(** ** Every run can be finished *)

Lemma exec_app (a b : list choice) (m : machine) :
  exec (a ++ b) m = exec b (exec a m).
Proof. unfold exec. apply fold_left_app. Qed.

Lemma exec_ticks (k : nat) (pool : list thread) (w : World) :
  exec (replicate k Tick) (pool, w) = (pool, advance (Z.of_nat k) w).
Proof.
  revert w. induction k as [|k IH]; intros w.
  - destruct w. unfold advance. simpl. rewrite Z.add_0_r. reflexivity.
  - change (replicate (S k) Tick) with ([Tick] ++ replicate k Tick).
    rewrite exec_app. simpl. rewrite IH. unfold advance. simpl.
    do 2 f_equal. lia.
Qed.

Lemma sum_list_with_pos {A} (f : A -> nat) (l : list A) :
  (0 < sum_list_with f l)%nat ->
  exists i x, l !! i = Some x /\ (0 < f x)%nat.
Proof.
  induction l as [|a l IH]; simpl; [lia|]. intros H.
  destruct (f a) eqn:Ha.
  - destruct (IH H) as (i & x & Hi & Hx). exists (S i), x. split; assumption.
  - exists O, a. split; [reflexivity|lia].
Qed.

(** A caller that holds the lock and is not asleep runs its next
    statement. *)
Lemma caller_inside_runs (alert0 : Z) (n : nat) (t : thread) (w : World) :
  tidy alert0 n w t -> inside t = true -> lock_held w = true ->
  nap_left t w = O ->
  exists t' w', step_thread t w = Some (t', w') /\
                (remaining t' < remaining t)%nat.
Proof.
  unfold lock_held. intros Ht Hin Hl Hnap.
  destruct t; simpl in Ht, Hin, Hnap; try contradiction; try discriminate;
    unfold step_thread, go, bind, ret, id, lock_release, read_state,
      write_state, read_config, should_boss_alert_increase, random_randint,
      with_stress_decrease, sleep_until, woken, time_time, bind, ret;
    simpl; rewrite ?Hl; simpl.
  - destruct (boss_alert_level (_state (state_manager w)) =? BOSS_ALERT_MAX);
      simpl; do 2 eexists; (split; [reflexivity|simpl; lia]).
  - destruct (wake <=? clock w) eqn:Hw; [|lia].
    do 2 eexists; (split; [reflexivity|simpl; lia]).
  - do 2 eexists; (split; [reflexivity|simpl; lia]).
  - do 2 eexists; (split; [reflexivity|simpl; lia]).
  - do 2 eexists; (split; [reflexivity|simpl; lia]).
  - do 2 eexists; (split; [reflexivity|simpl; lia]).
  - do 2 eexists; (split; [reflexivity|simpl; lia]).
  - do 2 eexists; (split; [reflexivity|simpl; lia]).
  - do 2 eexists; (split; [reflexivity|simpl; lia]).
  - do 2 eexists; (split; [reflexivity|simpl; lia]).
  - do 2 eexists; (split; [reflexivity|simpl; lia]).
  - do 2 eexists; (split; [reflexivity|simpl; lia]).
Qed.

(** A caller that has not returned and finds the lock free takes it. *)
Lemma caller_outside_runs (alert0 : Z) (n : nat) (t : thread) (w : World) :
  tidy alert0 n w t -> inside t = false -> lock_held w = false ->
  (0 < remaining t)%nat ->
  exists t' w', step_thread t w = Some (t', w') /\
                (remaining t' < remaining t)%nat.
Proof.
  unfold lock_held. intros Ht Hout Hl Hrem.
  destruct t; simpl in Ht, Hout, Hrem; try contradiction; try discriminate;
    try lia;
    unfold step_thread, go, lock_acquire; simpl; rewrite Hl;
    do 2 eexists; (split; [reflexivity|simpl; lia]).
Qed.

Lemma holder_exists (pool : list thread) :
  (0 < holders pool)%nat ->
  exists i t, pool !! i = Some t /\ inside t = true.
Proof.
  intros H. destruct (sum_list_with_pos _ pool H) as (i & t & Hi & Ht).
  exists i, t. split; [exact Hi|]. destruct (inside t); [reflexivity|].
  simpl in Ht. lia.
Qed.

Lemma lossless_exec (alert0 : Z) (callers : nat) (schedule : list choice)
    (m : machine) :
  lossless alert0 callers m -> lossless alert0 callers (exec schedule m).
Proof.
  apply exec_invariant. intros; apply lossless_step; assumption.
Qed.

(** From any machine of the scenario some thread can be run, after
    letting time pass if it sleeps, so that less remains to be done. *)
Lemma lossless_progress (alert0 : Z) (callers : nat) (m : machine) :
  lossless alert0 callers m ->
  (0 < sum_list_with remaining (fst m))%nat ->
  exists more,
    (sum_list_with remaining (fst (exec more m)) <
     sum_list_with remaining (fst m))%nat.
Proof.
  destruct m as [pool w]. intros Hinv Hpos. simpl in Hpos.
  assert (Hrun : forall i t (w1 : World),
            lossless alert0 callers (pool, w1) ->
            pool !! i = Some t ->
            (exists t' w', step_thread t w1 = Some (t', w') /\
                           (remaining t' < remaining t)%nat) ->
            (sum_list_with remaining (fst (exec [Run i] (pool, w1))) <
             sum_list_with remaining pool)%nat).
  { intros i t w1 _ Hi (t' & w' & Hstep & Hlt).
    unfold exec. simpl. rewrite Hi, Hstep. simpl.
    pose proof (sum_list_with_insert remaining pool i t t' Hi). lia. }
  destruct (lock_held w) eqn:Hl.
  - destruct Hinv as (Hm & Hrest).
    assert (Hh : (0 < holders pool)%nat).
    { unfold mutex in Hm. simpl in Hm. rewrite Hm, Hl. simpl. lia. }
    destruct (holder_exists pool Hh) as (i & t & Hi & Hin).
    set (k := nap_left t w).
    exists (replicate k Tick ++ [Run i]).
    rewrite exec_app, exec_ticks.
    assert (Hinv' : lossless alert0 callers
                      (pool, advance (Z.of_nat k) w)).
    { rewrite <- exec_ticks. apply lossless_exec. split; assumption. }
    apply (Hrun i t _ Hinv' Hi).
    destruct Hinv' as (_ & _ & _ & _ & _ & Hpool').
    apply (caller_inside_runs alert0 (count stored pool)).
    + apply (Forall_lookup_1 _ _ _ _ Hpool' Hi).
    + exact Hin.
    + exact Hl.
    + subst k. destruct t; simpl; try reflexivity. lia.
  - destruct (sum_list_with_pos remaining pool Hpos) as (i & t & Hi & Hrem).
    exists [Run i]. apply (Hrun i t w Hinv Hi).
    destruct Hinv as (Hm & _ & _ & _ & _ & Hpool).
    apply (caller_outside_runs alert0 (count stored pool)).
    + apply (Forall_lookup_1 _ _ _ _ Hpool Hi).
    + eapply mutex_free; eassumption.
    + exact Hl.
    + exact Hrem.
Qed.

Lemma lossless_finishes (alert0 : Z) (callers : nat) (fuel : nat) :
  forall m,
    lossless alert0 callers m ->
    (sum_list_with remaining (fst m) <= fuel)%nat ->
    exists more, sum_list_with remaining (fst (exec more m)) = O.
Proof.
  induction fuel as [|fuel IH]; intros m Hinv Hle.
  - exists []. simpl. lia.
  - destruct (sum_list_with remaining (fst m)) as [|r] eqn:Hr.
    + exists []. exact Hr.
    + destruct (lossless_progress alert0 callers m Hinv) as [more1 Hlt];
        [lia|].
      destruct (IH (exec more1 m)) as [more2 Hdone].
      * apply lossless_exec, Hinv.
      * lia.
      * exists (more1 ++ more2). rewrite exec_app. exact Hdone.
Qed.

Lemma nothing_remaining (alert0 : Z) (n : nat) (w : World)
    (pool : list thread) :
  Forall (tidy alert0 n w) pool ->
  sum_list_with remaining pool = O ->
  breaks_returned pool.
Proof.
  unfold breaks_returned. intros Hpool.
  induction Hpool as [|t pool Ht _ IH]; simpl; intros Hz; constructor.
  - intros Hb. destruct t; simpl in *; try discriminate; try lia.
    eexists. reflexivity.
  - apply IH. lia.
Qed.

(** ** A thread alone does what the method does

    Run without interference, the statements of a [take_break] thread
    leave the very world the monadic [take_break] leaves, and return the
    same pair; likewise for [get_state]. *)

Lemma exec_run (i : nat) (rest : list choice) (pool : list thread)
    (w w' : World) (t t' : thread) :
  pool !! i = Some t ->
  step_thread t w = Some (t', w') ->
  exec (Run i :: rest) (pool, w) = exec rest (<[i:=t']> pool, w').
Proof. intros Hi Hstep. unfold exec. simpl. rewrite Hi, Hstep. reflexivity. Qed.

Lemma exec_stay (i : nat) (rest : list choice) (pool : list thread)
    (w : World) (t : thread) :
  pool !! i = Some t ->
  step_thread t w = None ->
  exec (Run i :: rest) (pool, w) = exec rest (pool, w).
Proof. intros Hi Hstep. unfold exec. simpl. rewrite Hi, Hstep. reflexivity. Qed.

Ltac run_one tac :=
  erewrite exec_run;
  [| reflexivity
   | unfold step_thread, go, bind, read_state, woken; cbn; tac; reflexivity];
  unfold log, set_manager, consume;
  cbn [insert list_insert config state_manager clock entropy cursor trace
       _state _lock _running].

Lemma solo_take_break (stress_decrease : Z) (w : World) :
  lock_free w ->
  exists result,
    take_break stress_decrease w =
      (Returned result, break_world stress_decrease w) /\
    exec (solo_break_schedule w) ([TbCall stress_decrease], w) =
      ([TbDone result], break_world stress_decrease w).
Proof.
  intros Hl. eexists. split; [apply take_break_run; exact Hl|].
  destruct w as [cfg [s l r] c en cu tr]. unfold lock_free in Hl.
  simpl in Hl. subst l.
  unfold solo_break_schedule, break_world, break_events, break_state,
    escalates, threshold_delay, next_draw, current.
  cbn [state_manager _state _running config clock entropy cursor trace
       app replicate].
  destruct (boss_alert_level s =? BOSS_ALERT_MAX) eqn:Hmax.
  - run_one idtac. run_one ltac:(rewrite Hmax; cbn).
    change (Z.to_nat BOSS_ALERT_DELAY) with 20%nat.
    rewrite exec_app, exec_ticks. unfold advance.
    cbn [config state_manager clock entropy cursor trace].
    change (Z.of_nat 20) with BOSS_ALERT_DELAY.
    run_one ltac:(rewrite Z.leb_refl).
    do 7 run_one idtac.
    unfold exec; cbn [fold_left].
    destruct (randint_of 1 100 (en cu) <=? boss_alertness cfg);
      cbn [stress_level boss_alert_level]; rewrite <- ?app_assoc;
      reflexivity.
  - run_one idtac. run_one ltac:(rewrite Hmax; cbn).
    change (Z.to_nat 0) with 0%nat. cbn [replicate app].
    do 7 run_one idtac.
    erewrite exec_stay by reflexivity.
    rewrite !Z.add_0_r.
    unfold exec; cbn [fold_left].
    destruct (randint_of 1 100 (en cu) <=? boss_alertness cfg);
      cbn [stress_level boss_alert_level]; rewrite <- ?app_assoc;
      reflexivity.
Qed.

Lemma solo_get_state (w : World) :
  lock_free w ->
  exists result w',
    get_state w = (Returned result, w') /\
    exec (replicate 4 (Run O)) ([GsCall], w) = ([GsDone result], w').
Proof.
  intros Hl. do 2 eexists. split; [apply get_state_run; exact Hl|].
  destruct w as [cfg [s l r] c en cu tr]. unfold lock_free in Hl.
  simpl in Hl. subst l. cbn [replicate].
  do 4 run_one idtac.
  unfold exec, current; cbn [fold_left state_manager _state].
  rewrite <- ?app_assoc. reflexivity.
Qed.

(** C8.  Atomicity under concurrency.  Let any number of threads call
    [take_break(1)] and any number call [get_state()], interleaved
    statement by statement in any order and with time passing at any
    point, from a manager whose lock is free and whose stress is 100,
    with escalation probability 0.  At every moment the stress is
    [max(0, 100 - k)] for the number k of callers that have assigned their
    new state; once all N callers have returned it is [max(0, 100 - N)];
    every pair [get_state] has returned is the pair of counters of a
    single installed state, namely [(max(0, 100 - k), alert)] for some
    k <= N; and every run can be continued until all callers have
    returned. *)
Theorem atomicity (pool : list thread) (w : World) (schedule : list choice) :
  Forall (fun t => t = TbCall 1 \/ t = GsCall) pool ->
  lock_free w ->
  boss_alertness (config w) = 0 ->
  stress_level (current w) = 100 ->
  let N := count breaking pool in
  let m' := exec schedule (pool, w) in
  stress_level (current (snd m')) =
    Z.max 0 (100 - Z.of_nat (count stored (fst m'))) /\
  (breaks_returned (fst m') ->
   stress_level (current (snd m')) = Z.max 0 (100 - Z.of_nat N)) /\
  (forall i result,
     fst m' !! i = Some (GsDone result) ->
     (exists s, installed (current w) (snd m') s /\ result = snapshot s) /\
     (exists k : nat,
        (k <= N)%nat /\
        result = (Z.max 0 (100 - Z.of_nat k), boss_alert_level (current w)))) /\
  (exists more, breaks_returned (fst (exec (schedule ++ more) (pool, w)))).
Proof.
  intros Hpool Hl Hp Hs N m'.
  assert (Hfresh : Forall (fun t => fresh t = true) pool).
  { eapply Forall_impl; [exact Hpool|]. intros t [->| ->]; reflexivity. }
  assert (Hinv : lossless (boss_alert_level (current w)) N m').
  { apply exec_invariant; [intros; apply lossless_step; assumption|].
    apply callers_lossless; assumption. }
  assert (Hend : exists more,
            breaks_returned (fst (exec (schedule ++ more) (pool, w)))).
  { destruct (lossless_finishes _ _ _ m' Hinv (Nat.le_refl _))
      as [more Hdone].
    exists more. rewrite exec_app. fold m'.
    pose proof (lossless_exec _ _ more m' Hinv) as (_ & _ & _ & _ & _ & Hp').
    eapply nothing_remaining; eassumption. }
  destruct Hinv as (_ & _ & _ & Hstress & Hn & Htidy).
  split; [exact Hstress|]. split; [|split; [|exact Hend]].
  - intros Hret. rewrite Hstress, (returned_all_stored _ Hret), Hn.
    reflexivity.
  - intros i result Hi. split.
    + apply (snapshots_whole pool w schedule Hfresh Hl i result).
      left. exact Hi.
    + pose proof (Forall_lookup_1 _ _ _ _ Htidy Hi) as (k & Hk & Hr).
      exists k. split; [|exact Hr].
      pose proof (sum_list_with_le (fun t => Nat.b2n (stored t))
                    (fun t => Nat.b2n (breaking t)) (fst m') stored_breaking)
        as Hle.
      change (sum_list_with (fun t => Nat.b2n (stored t)))
        with (count stored) in Hle.
      change (sum_list_with (fun t => Nat.b2n (breaking t)))
        with (count breaking) in Hle.
      lia.
Qed.

Lemma atomicity_witness :
  let m' := exec demo_schedule (demo_pool, demo_world) in
  breaks_returned (fst m') /\
  stress_level (current (snd m')) = 97 /\
  fst m' !! 1%nat = Some (GsDone (99, 5)) /\
  fst m' !! 3%nat = Some (GsDone (98, 5)).
Proof.
  intros m'.
  assert (Hpool : Forall (fun t => t = TbCall 1 \/ t = GsCall) demo_pool).
  { unfold demo_pool. repeat (constructor; [auto|]). constructor. }
  destruct (atomicity demo_pool demo_world demo_schedule Hpool
              eq_refl eq_refl eq_refl) as (_ & Hfinal & _ & _).
  assert (Hret : breaks_returned (fst m')).
  { subst m'. vm_compute.
    repeat constructor; intros H;
      first [discriminate H | eexists; reflexivity]. }
  split; [exact Hret|]. split; [exact (Hfinal Hret)|].
  split; vm_compute; reflexivity.
Defined.

(** ** More on the sequential code *)

(** X1.  Configuration is always valid.  Whatever the two command-line
    integers, [Config] holds a probability in [0, 100] and a cooldown of
    at least 1; values already in range are kept, the others go to the
    nearest bound; validating twice changes nothing. *)
Theorem config_always_valid (a c : Z) :
  let cfg := Config_init a c in
  0 <= boss_alertness cfg <= 100 /\
  1 <= boss_alertness_cooldown cfg /\
  (0 <= a <= 100 -> boss_alertness cfg = a) /\
  (a < 0 -> boss_alertness cfg = 0) /\
  (100 < a -> boss_alertness cfg = 100) /\
  (1 <= c -> boss_alertness_cooldown cfg = c) /\
  (c < 1 -> boss_alertness_cooldown cfg = 1) /\
  Config_init (boss_alertness cfg) (boss_alertness_cooldown cfg) = cfg.
Proof.
  unfold Config_init, _validate_alertness. simpl.
  repeat split; try lia. f_equal; lia.
Qed.

Lemma config_always_valid_witness :
  boss_alertness (Config_init 250 (-3)) = 100 /\
  boss_alertness_cooldown (Config_init 250 (-3)) = 1.
Proof.
  destruct (config_always_valid 250 (-3)) as (_ & _ & _ & _ & H1 & _ & H2 & _).
  split; [apply H1|apply H2]; lia.
Defined.

(** X2.  An escalation is undone by one decay turn exactly when the alert level
    was in [0, 4]: at 5 the escalation is lost and the decay leaves 4. *)
Theorem escalation_undone_by_decay (s : State) :
  (with_boss_decrease (with_boss_increase s) = s <->
   0 <= boss_alert_level s < 5) /\
  (boss_alert_level s = 5 ->
   boss_alert_level (with_boss_decrease (with_boss_increase s)) = 4).
Proof.
  destruct s as [st al t].
  unfold with_boss_decrease, with_boss_increase, BOSS_ALERT_MIN,
    BOSS_ALERT_MAX. simpl. split; [split|].
  - intros H. injection H as H. lia.
  - intros H. f_equal. lia.
  - intros ->. reflexivity.
Qed.

Lemma escalation_undone_by_decay_witness :
  with_boss_decrease (with_boss_increase (mkState 70 3 9)) = mkState 70 3 9 /\
  boss_alert_level (with_boss_decrease (with_boss_increase (mkState 70 5 9)))
    = 4.
Proof.
  split.
  - apply (proj1 (escalation_undone_by_decay (mkState 70 3 9))). simpl. lia.
  - apply (proj2 (escalation_undone_by_decay (mkState 70 5 9))). reflexivity.
Defined.





Lemma escalates_at_hundred (w : World) :
  boss_alertness (config w) = 100 -> escalates w = true.
Proof.
  intros Hp. unfold escalates. rewrite Hp.
  pose proof (next_draw_range w). apply Z.leb_le. lia.
Qed.




Lemma breaks_at_hundred (amounts : list Z) :
  forall (w : World) (j : Z),
    lock_free w -> boss_alertness (config w) = 100 -> 0 <= j ->
    boss_alert_level (current w) = Z.min 5 j ->
    forall (k : nat) r,
      history (map OpTakeBreak amounts) w !! k = Some r ->
      fst r = Returned tt /\
      boss_alert_level (current (snd r)) = Z.min 5 (j + Z.of_nat k + 1).
Proof.
  induction amounts as [|d amounts IH]; intros w j Hl Hp Hj Ha k r Hk;
    [discriminate|].
  simpl in Hk. unfold bind in Hk. rewrite take_break_run in Hk by exact Hl.
  simpl in Hk.
  assert (Ha' : boss_alert_level (current (break_world d w)) =
                Z.min 5 (j + 1)).
  { rewrite current_break_world, break_state_alert,
      (escalates_at_hundred w Hp), Ha. lia. }
  destruct k as [|k].
  - injection Hk as <-. simpl. split; [reflexivity|].
    rewrite Ha'. f_equal. lia.
  - simpl in Hk.
    destruct (IH (break_world d w) (j + 1) eq_refl Hp ltac:(lia) Ha' k r Hk)
      as [Hret Hal].
    split; [exact Hret|]. rewrite Hal. f_equal. lia.
Qed.

(** X5.  Probability 100.  Started with [--boss_alertness] at or above 100,
    every break escalates: the k-th of a run of breaks from process start
    returns and leaves the alert level at [min(5, k)], whatever the
    amounts. *)
Theorem always_escalates_at_hundred (a c clock0 : Z) (en : nat -> Z)
    (amounts : list Z) (k : nat) (r : outcome unit * World) :
  100 <= a ->
  history (map OpTakeBreak amounts) (boot a c clock0 en) !! k = Some r ->
  fst r = Returned tt /\
  boss_alert_level (current (snd r)) = Z.min 5 (Z.of_nat k + 1).
Proof.
  intros Ha Hk.
  assert (Hp : boss_alertness (config (boot a c clock0 en)) = 100).
  { unfold boot. simpl. unfold _validate_alertness. lia. }
  apply (breaks_at_hundred amounts (boot a c clock0 en) 0 eq_refl Hp
           ltac:(lia) eq_refl k r Hk).
Qed.

Lemma always_escalates_at_hundred_witness :
  exists r,
    history (map OpTakeBreak [3; 0; 40; 7; 7; 7; 1])
            (boot 100 300 0 (fun _ => 99)) !! 6%nat = Some r /\
    fst r = Returned tt /\ boss_alert_level (current (snd r)) = 5.
Proof.
  eexists. split; [reflexivity|].
  apply (always_escalates_at_hundred 100 300 0 (fun _ => 99)
           [3; 0; 40; 7; 7; 7; 1] 6); [lia|reflexivity].
Defined.

(** X6.  Shutdown.  [stop()] needs no lock and touches neither the state, the
    lock, the clock nor the trace; once it has run, each background loop
    ends at its next test without sleeping or changing anything, while
    callers are served as before. *)
Theorem stop_ends_the_loops (w : World) (fuel : nat) (d : Z) :
  exists w1,
    stop w = (Returned tt, w1) /\
    _running (state_manager w1) = false /\
    _state (state_manager w1) = _state (state_manager w) /\
    _lock (state_manager w1) = _lock (state_manager w) /\
    clock w1 = clock w /\ trace w1 = trace w /\
    _auto_increase_stress (S fuel) w1 = (Returned true, w1) /\
    _auto_decrease_boss_alert (S fuel) w1 = (Returned true, w1) /\
    fst (take_break d w1) = fst (take_break d w) /\
    fst (get_state w1) = fst (get_state w).
Proof.
  eexists. split; [reflexivity|].
  destruct w as [cfg [s l r] c en cu tr].
  do 7 (split; [reflexivity|]).
  destruct l; [split; reflexivity|].
  unfold stop, write_running, set_manager. cbn [snd state_manager _state
    _lock config clock entropy cursor trace].
  rewrite !take_break_run, !get_state_run by reflexivity.
  cbn [fst]. rewrite !break_state_stress, !break_state_alert.
  split; reflexivity.
Qed.

(** X7.  The lock protocol of the methods, one caller at a time.  Called with
    the lock free, [take_break], [get_state], [reset] and a turn of either
    loop leave it free again; called with the lock held, the three
    methods never return and change nothing, for the lock is not
    reentrant. *)
Theorem lock_protocol (w : World) (d : Z) :
  (lock_free w ->
   lock_free (snd (take_break d w)) /\
   lock_free (snd (get_state w)) /\
   lock_free (snd (reset w)) /\
   lock_free (snd (_auto_increase_stress_turn w)) /\
   lock_free (snd (_auto_decrease_boss_alert_turn w))) /\
  (lock_held w = true ->
   take_break d w = (Blocked, w) /\
   get_state w = (Blocked, w) /\
   reset w = (Blocked, w) /\
   fst (_auto_increase_stress_turn w) = Blocked /\
   state_manager (snd (_auto_increase_stress_turn w)) = state_manager w).
Proof.
  split.
  - intros Hl.
    rewrite (take_break_run d w Hl), (get_state_run w Hl), (reset_run w Hl),
      (stress_turn_run w Hl).
    do 4 (split; [first [reflexivity | exact Hl]|]).
    destruct w as [cfg [s l r] c en cu tr]. unfold lock_free in *.
    simpl in Hl. subst l.
    unfold _auto_decrease_boss_alert_turn, bind, read_config, time_sleep.
    simpl. destruct (boss_alertness_cooldown cfg <? 0); reflexivity.
  - unfold lock_held. intros Hl.
    destruct w as [cfg [s l r] c en cu tr]. simpl in Hl. subst l.
    repeat split.
Qed.

Lemma lock_protocol_witness :
  let w := boot 50 300 0 (fun _ => 3) in
  lock_free (snd (take_break 10 w)) /\
  lock_free (snd (get_state w)) /\
  lock_free (snd (reset w)) /\
  lock_free (snd (_auto_increase_stress_turn w)) /\
  lock_free (snd (_auto_decrease_boss_alert_turn w)).
Proof.
  intros w. apply (proj1 (lock_protocol w 10)). reflexivity.
Defined.

Lemma perform_same_but_trace (o : operation) (w1 w2 : World) :
  same_but_trace w1 w2 ->
  fst (perform o w1) = fst (perform o w2) /\
  same_but_trace (snd (perform o w1)) (snd (perform o w2)).
Proof.
  destruct w1 as [cfg [s l r] c en cu tr1], w2 as [cfg2 m2 c2 en2 cu2 tr2].
  unfold same_but_trace. simpl. intros (<- & <- & <- & <- & <-).
  destruct l.
  - destruct o; simpl; unfold bind; try (split; [reflexivity|repeat split]).
    unfold _auto_decrease_boss_alert_turn, bind, read_config, time_sleep,
        with_lock, lock_acquire.
      simpl. destruct (boss_alertness_cooldown cfg <? 0); repeat split.
  - destruct o; cbn [perform]; unfold bind.
    + rewrite !take_break_run by reflexivity. repeat split.
    + rewrite !get_state_run by reflexivity. repeat split.
    + rewrite !stress_turn_run by reflexivity. repeat split.
    + unfold _auto_decrease_boss_alert_turn, bind, read_config, time_sleep,
        with_lock, lock_acquire, read_state, write_state, lock_release, bind.
      simpl. destruct (boss_alertness_cooldown cfg <? 0); repeat split.
    + rewrite !reset_run by reflexivity. repeat split.
Qed.

Lemma history_same_but_trace (ops : list operation) :
  forall w1 w2,
    same_but_trace w1 w2 ->
    observations (history ops w1) = observations (history ops w2).
Proof.
  induction ops as [|o ops IH]; intros w1 w2 Hw; [reflexivity|].
  destruct (perform_same_but_trace o w1 w2 Hw) as [Hret Hw'].
  simpl. rewrite (IH _ _ Hw'), Hret.
  destruct Hw' as (_ & -> & -> & _). reflexivity.
Qed.

(** X8.  Reading disturbs nothing.  A call of [get_state], whether it returns
    or not, changes nothing that later operations depend on: any sequence
    of operations produces the same outcomes, managers and clocks after
    it as without it. *)
Theorem get_state_disturbs_nothing (ops : list operation) (w : World) :
  same_but_trace (snd (get_state w)) w /\
  observations (history ops (snd (get_state w))) =
  observations (history ops w).
Proof.
  assert (H : same_but_trace (snd (get_state w)) w).
  { destruct w as [cfg [s l r] c en cu tr]. destruct l; repeat split. }
  split; [exact H|]. apply history_same_but_trace, H.
Qed.



(** ** Arbitrary pools of threads *)

(** X10.  Mutual exclusion.  Whatever fresh threads run (callers of
    [take_break], [get_state], [reset] and [stop], and the two background
    loops) and however they are scheduled, no two of them are inside a
    [with self._lock] block at once, and the lock is held exactly when one
    of them is. *)
Theorem mutual_exclusion (pool : list thread) (w : World)
    (schedule : list choice) :
  Forall (fun t => fresh t = true) pool ->
  lock_free w ->
  let m' := exec schedule (pool, w) in
  (forall i j t u,
     fst m' !! i = Some t -> fst m' !! j = Some u ->
     inside t = true -> inside u = true -> i = j) /\
  (lock_held (snd m') = true <->
   exists i t, fst m' !! i = Some t /\ inside t = true).
Proof.
  intros Hf Hl m'.
  assert (Hm : mutex m').
  { apply exec_invariant; [apply mutex_step|]. apply fresh_mutex; assumption. }
  destruct m' as [pool' w']. simpl. split.
  - intros i j t u Hi Hj Ht Hu.
    destruct (decide (i = j)) as [E|Hne]; [exact E|exfalso].
    pose proof (proj2 (mutex_holder pool' w' i t Hm Hi Ht) j u
                  (not_eq_sym Hne) Hj) as Hout.
    congruence.
  - split.
    + intros Hheld. apply holder_exists.
      unfold mutex in Hm. simpl in Hm. rewrite Hm, Hheld. simpl. lia.
    + intros (i & t & Hi & Ht).
      exact (proj1 (mutex_holder pool' w' i t Hm Hi Ht)).
Qed.

Lemma mutual_exclusion_witness :
  let m' := exec [Run 0%nat; Run 1%nat; Run 2%nat; Run 0%nat; Run 3%nat]
                 ([TbCall 7; GsCall; IsTest; RsCall], boot 50 300 0 (fun _ => 3)) in
  (forall i j t u,
     fst m' !! i = Some t -> fst m' !! j = Some u ->
     inside t = true -> inside u = true -> i = j) /\
  (lock_held (snd m') = true <->
   exists i t, fst m' !! i = Some t /\ inside t = true).
Proof.
  apply (mutual_exclusion [TbCall 7; GsCall; IsTest; RsCall]
           (boot 50 300 0 (fun _ => 3))).
  - repeat (constructor; [reflexivity|]). constructor.
  - reflexivity.
Defined.





Lemma step_thread_modest (t t' : thread) (w w' : World) :
  step_thread t w = Some (t', w') ->
  in_bounds (current w) -> modest t ->
  modest t' /\ in_bounds (current w').
Proof.
  intros H Hb Ht. unfold in_bounds, pair_in_bounds, current in *.
  destruct t; simpl in Ht; unfold_step H; simpl;
    unfold with_boss_increase, with_boss_decrease, with_stress_increase,
      STRESS_MIN, STRESS_MAX, BOSS_ALERT_MIN, BOSS_ALERT_MAX; simpl;
    try (split; [exact I|]); unfold in_bounds, pair_in_bounds in *; simpl;
    try lia; try tauto.
Qed.

Lemma bounded_step (m : machine) (c : choice) : bounded m -> bounded (step m c).
Proof.
  destruct m as [pool w]. intros (Hb & Hpool).
  destruct c as [|i]; simpl in *.
  - split; assumption.
  - destruct (pool !! i) as [t|] eqn:Hi; [|split; assumption].
    destruct (step_thread t w) as [[t' w']|] eqn:Hstep; [|split; assumption].
    destruct (step_thread_modest t t' w w' Hstep Hb
                (Forall_lookup_1 _ _ _ _ Hpool Hi)) as [Ht' Hb'].
    split; [exact Hb'|]. simpl.
    apply Forall_insert_others with (P := modest); auto.
Qed.

(** X12.  Bounds under interleaving.  Let fresh threads of every kind run under
    any schedule, the callers of [take_break] passing non-negative
    amounts, from a state within the ranges.  The state stays within
    [0, 100] and [0, 5] at every moment, and so does every pair
    [take_break] or [get_state] returns.  The lock plays no part in
    this. *)
Theorem bounds_under_interleaving (pool : list thread) (w : World)
    (schedule : list choice) :
  Forall (fun t => fresh t = true /\ modest t) pool ->
  in_bounds (current w) ->
  let m' := exec schedule (pool, w) in
  in_bounds (current (snd m')) /\
  (forall i result,
     fst m' !! i = Some (TbDone result) \/ fst m' !! i = Some (GsDone result) ->
     pair_in_bounds result).
Proof.
  intros Hpool Hb m'.
  assert (Hinv : bounded m').
  { apply exec_invariant; [apply bounded_step|]. split; [exact Hb|].
    eapply Forall_impl; [exact Hpool|]. intros t [_ Ht]. exact Ht. }
  destruct Hinv as [Hb' Hpool']. split; [exact Hb'|].
  intros i result [Hi|Hi]; exact (Forall_lookup_1 _ _ _ _ Hpool' Hi).
Qed.

Lemma bounds_under_interleaving_witness :
  let m' := exec (concat (replicate 60 [Run 0%nat; Run 1%nat; Tick;
                                        Run 2%nat; Run 3%nat; Run 4%nat]))
                 ([TbCall 70; BdTest; GsCall; TbCall 0; RsCall],
                  boot 100 1 0 (fun n => Z.of_nat n)) in
  in_bounds (current (snd m')) /\
  (forall i result,
     fst m' !! i = Some (TbDone result) \/ fst m' !! i = Some (GsDone result) ->
     pair_in_bounds result).
Proof.
  apply (bounds_under_interleaving
           [TbCall 70; BdTest; GsCall; TbCall 0; RsCall]
           (boot 100 1 0 (fun n => Z.of_nat n))).
  - repeat (constructor; [split; [reflexivity|simpl; try lia; exact I]|]).
    constructor.
  - unfold in_bounds. simpl. lia.
Defined.

(** X13.  Snapshots are never torn.  Whatever fresh threads run and however
    they are scheduled, every pair a [get_state] or a [take_break] call
    has returned consists of the two counters of one and the same state:
    the state the run began with or one some thread has assigned to
    [self._state]. *)
Theorem snapshots_never_torn (pool : list thread) (w : World)
    (schedule : list choice) :
  Forall (fun t => fresh t = true) pool ->
  lock_free w ->
  let m' := exec schedule (pool, w) in
  forall i result,
    fst m' !! i = Some (GsDone result) \/ fst m' !! i = Some (TbDone result) ->
    exists s,
      (s = current w \/ In (EvStore s) (trace (snd m'))) /\
      result = (stress_level s, boss_alert_level s).
Proof.
  intros Hf Hl m' i result Hi.
  destruct (snapshots_whole pool w schedule Hf Hl i result Hi)
    as (s & Hs & Hr).
  exists s. split; [|exact Hr].
  destruct Hs as [Hs|Hs]; [left|right]; exact Hs.
Qed.

Lemma snapshots_never_torn_witness :
  let w := boot 100 300 0 (fun _ => 3) in
  let m' := exec (concat (replicate 30 [Run 0%nat; Run 1%nat; Run 2%nat]))
                 ([TbCall 30; GsCall; RsCall], w) in
  fst m' !! 1%nat = Some (GsDone (20, 1)) /\
  exists s,
    (s = current w \/ In (EvStore s) (trace (snd m'))) /\
    (20, 1) = (stress_level s, boss_alert_level s).
Proof.
  intros w m'. split; [vm_compute; reflexivity|].
  apply (snapshots_never_torn [TbCall 30; GsCall; RsCall] w
           (concat (replicate 30 [Run 0%nat; Run 1%nat; Run 2%nat])))
    with (i := 1%nat).
  - repeat (constructor; [reflexivity|]). constructor.
  - reflexivity.
  - left. vm_compute. reflexivity.
Defined.

(** With the lock held by someone else, a thread's statement neither
    takes the lock, nor changes the state, nor completes a call that uses
    the lock. *)
Lemma step_thread_locked_out (t t' : thread) (w w' : World) :
  step_thread t w = Some (t', w') ->
  inside t = false -> lock_held w = true ->
  inside t' = false /\ current w' = current w /\ clock w' = clock w /\
  lock_held w' = true /\
  (t' <> StDone -> returned t' = false).
Proof.
  unfold lock_held, current. intros H Hout Hl.
  destruct t; simpl in Hout; try discriminate; unfold_step H; simpl;
    try congruence; repeat split; try assumption; try reflexivity;
    try congruence.
Qed.

Lemma sleeper_waits (d wake : Z) (w : World) :
  clock w < wake -> step_thread (TbSleep d wake) w = None.
Proof.
  intros Hlt. unfold step_thread, go, woken.
  destruct (wake <=? clock w) eqn:Hw; [lia|reflexivity].
Qed.

Lemma stalled_run (i : nat) (d wake : Z) (m0 : machine)
    (schedule : list choice) :
  forall m,
    stalled i d wake m0 m ->
    clock (snd m) + Z.of_nat (ticks schedule) < wake ->
    stalled i d wake m0 (exec schedule m).
Proof.
  induction schedule as [|c schedule IH]; intros m Hst Hclock.
  - exact Hst.
  - change (exec (c :: schedule) m) with (exec schedule (step m c)).
    destruct m as [pool w]. destruct Hst as (Hm & Hi & Hcur & Hret).
    pose proof (mutex_step (pool, w) c Hm) as Hm'.
    unfold ticks in Hclock. simpl in Hclock, Hi, Hcur, Hret.
    fold (ticks schedule) in Hclock.
    destruct (mutex_holder pool w i _ Hm Hi eq_refl) as [Hheld Hothers].
    destruct c as [|j]; simpl in *.
    + apply IH; [|simpl; lia]. repeat split; assumption.
    + destruct (pool !! j) as [u|] eqn:Hj;
        [|apply IH; [repeat split; assumption|simpl; lia]].
      destruct (decide (j = i)) as [->|Hne].
      * assert (u = TbSleep d wake) by congruence. subst u.
        rewrite sleeper_waits by lia.
        apply IH; [repeat split; assumption|simpl; lia].
      * destruct (step_thread u w) as [[u' w']|] eqn:Hstep;
          [|apply IH; [repeat split; assumption|simpl; lia]].
        destruct (step_thread_locked_out u u' w w' Hstep
                    (Hothers j u Hne Hj) Hheld)
          as (Hout' & Hcur' & Hclk' & _ & Hnew).
        apply IH; [|simpl; lia].
        split; [exact Hm'|]. simpl. split; [|split].
        -- rewrite list_lookup_insert_ne by congruence. exact Hi.
        -- congruence.
        -- intros k v Hk Hv Hns.
           destruct (decide (k = j)) as [->|Hkj].
           ++ rewrite list_lookup_insert_eq in Hk
                by (apply lookup_lt_Some in Hj; exact Hj).
              injection Hk as <-. rewrite (Hnew Hns) in Hv. discriminate.
           ++ rewrite list_lookup_insert_ne in Hk by congruence.
              apply (Hret k v Hk Hv Hns).
Qed.

(** X14.  Backpressure.  Once a caller of [take_break] has begun the threshold
    delay, and for as long as its 20 seconds have not passed, whatever
    the other threads attempt: it stays asleep holding the lock, no other
    thread gets inside a [with self._lock] block, the state is not
    replaced, and no other call of [take_break], [get_state] or [reset]
    returns. *)
Theorem threshold_delay_stalls_everyone (pool : list thread) (w : World)
    (before after : list choice) (i : nat) (d wake : Z) :
  Forall (fun t => fresh t = true) pool ->
  lock_free w ->
  let m := exec before (pool, w) in
  fst m !! i = Some (TbSleep d wake) ->
  clock (snd m) + Z.of_nat (ticks after) < wake ->
  let m' := exec after m in
  fst m' !! i = Some (TbSleep d wake) /\
  lock_held (snd m') = true /\
  (forall j u, j <> i -> fst m' !! j = Some u -> inside u = false) /\
  current (snd m') = current (snd m) /\
  (forall j u, fst m' !! j = Some u -> returned u = true -> u <> StDone ->
               fst m !! j = Some u).
Proof.
  intros Hf Hl m Hi Hclock m'.
  assert (Hm : mutex m).
  { apply exec_invariant; [apply mutex_step|]. apply fresh_mutex; assumption. }
  assert (Hst : stalled i d wake m m').
  { apply stalled_run; [|exact Hclock]. repeat split; auto. }
  destruct Hst as (Hm' & Hi' & Hcur & Hret).
  destruct m' as [pool' w']. simpl in *.
  destruct (mutex_holder pool' w' i _ Hm' Hi' eq_refl) as [Hheld Hothers].
  repeat split; assumption.
Qed.

Lemma threshold_delay_stalls_everyone_witness :
  let w := mkWorld (Config_init 50 300)
                   (mkStateManager (mkState 40 5 0) false true)
                   100 (fun _ => 0) O [] in
  let pool := [TbCall 10; GsCall; TbCall 5; RsCall; IsTest] in
  let before := [Run 0%nat; Run 0%nat] in
  let after := concat (replicate 19 [Run 1%nat; Run 2%nat; Run 3%nat;
                                     Run 4%nat; Run 0%nat; Tick]) in
  let m := exec before (pool, w) in
  let m' := exec after m in
  fst m' !! 0%nat = Some (TbSleep 10 120) /\
  lock_held (snd m') = true /\
  (forall j u, j <> 0%nat -> fst m' !! j = Some u -> inside u = false) /\
  current (snd m') = current (snd m) /\
  (forall j u, fst m' !! j = Some u -> returned u = true -> u <> StDone ->
               fst m !! j = Some u).
Proof.
  intros w pool before after m m'.
  apply (threshold_delay_stalls_everyone pool w before after 0%nat 10 120).
  - repeat (constructor; [reflexivity|]). constructor.
  - reflexivity.
  - reflexivity.
  - vm_compute. reflexivity.
Defined.

(** * The response and tool layers *)















Lemma create_response_run (summary emoji : string)
    (stress_decrease : option Z) (w : World) :
  lock_free w ->
  exists d w0,
    Tools.calculate_stress_decrease_if_needed stress_decrease w =
      (Returned d, w0) /\
    match stress_decrease with
    | Some d0 => d = d0 /\ w0 = w
    | None => 1 <= d <= 100 /\ d = next_draw w /\ cursor w0 = S (cursor w)
    end /\
    lock_free w0 /\ current w0 = current w /\
    Tools.create_response summary emoji stress_decrease w =
      (Returned (Response.format_response summary
                   (stress_level (break_state d w0))
                   (boss_alert_level (break_state d w0)) emoji),
       break_world d w0).
Proof.
  intros Hl.
  assert (Hcalc : exists d w0,
            Tools.calculate_stress_decrease_if_needed stress_decrease w =
              (Returned d, w0) /\
            match stress_decrease with
            | Some d0 => d = d0 /\ w0 = w
            | None => 1 <= d <= 100 /\ d = next_draw w /\
                      cursor w0 = S (cursor w)
            end /\
            lock_free w0 /\ current w0 = current w).
  { destruct stress_decrease as [d0|].
    - exists d0, w. repeat split; assumption.
    - exists (next_draw w), (log (EvRandint 1 100 (next_draw w)) (consume w)).
      split; [reflexivity|]. split; [|split; [exact Hl|reflexivity]].
      split; [apply next_draw_range|]. split; reflexivity. }
  destruct Hcalc as (d & w0 & Hcalc & Hcase & Hl0 & Hcur0).
  exists d, w0. do 4 (split; [assumption|]).
  unfold Tools.create_response, bind. rewrite Hcalc.
  rewrite (take_break_run d w0 Hl0). reflexivity.
Qed.



(** X17.  [take_a_break] always helps.  Called with the lock free on a state
    within the ranges, the [take_a_break] tool returns after two draws,
    the first for the amount and the second for the escalation; it lowers
    the stress by the amount drawn, down to 0 at most, so a positive
    stress gets strictly lower and the stress reported is at most 99; the
    alert level stays or rises by one; the state remains within the
    ranges and the text reports it under the tool's fixed summary. *)
Theorem take_a_break_lowers_stress (w : World) :
  lock_free w ->
  in_bounds (current w) ->
  exists response w',
    take_a_break w = (Returned response, w') /\
    cursor w' = S (S (cursor w)) /\
    stress_level (current w') =
      Z.max 0 (stress_level (current w) - next_draw w) /\
    (0 < stress_level (current w) ->
     stress_level (current w') < stress_level (current w)) /\
    stress_level (current w') <= 99 /\
    boss_alert_level (current w) <= boss_alert_level (current w')
      <= boss_alert_level (current w) + 1 /\
    in_bounds (current w') /\
    lock_free w' /\
    content_item response "text" =
      Some (PyStr (Response.create_response_text
                     (Response.mkResponseData "Taking a short break to relax"
                        (stress_level (current w'))
                        (boss_alert_level (current w')) EMOJI_SLEEPING))).
Proof.
  intros Hl Hb.
  destruct (create_response_run "Taking a short break to relax"
              EMOJI_SLEEPING None w Hl)
    as (d & w0 & Hcalc & (Hd & Hdraw & Hcu) & Hl0 & Hcur0 & Hrun).
  eexists. exists (break_world d w0). split; [exact Hrun|].
  rewrite current_break_world, break_state_stress, break_state_alert, Hcur0.
  destruct Hb as [Hbs Hba]. subst d.
  split; [simpl; rewrite Hcu; reflexivity|].
  split; [reflexivity|].
  split; [intros Hpos; lia|].
  split; [lia|].
  split; [destruct (escalates w0); lia|].
  split; [unfold in_bounds;
          rewrite break_state_stress, break_state_alert, Hcur0;
          destruct (escalates w0); lia|].
  split; reflexivity.
Qed.

Lemma take_a_break_lowers_stress_witness :
  exists response w',
    take_a_break (boot 50 300 0 (fun n => Z.of_nat n + 6)) =
      (Returned response, w') /\
    stress_level (current w') = 43.
Proof.
  destruct (take_a_break_lowers_stress (boot 50 300 0 (fun n => Z.of_nat n + 6))
              eq_refl)
    as (response & w' & Hrun & _ & Hs & _).
  { unfold in_bounds. simpl. lia. }
  exists response, w'. split; [exact Hrun|]. rewrite Hs. reflexivity.
Defined.

(** X18.  [pick_random_item] returns one of the items it is given and uses one
    random value; on an empty tuple it raises [IndexError] and uses none;
    and every item can be picked. *)
Theorem pick_random_item_picks_an_item :
  (forall w, pick_random_item [] w = (IndexError, w)) /\
  (forall items w,
     items <> [] ->
     exists item,
       pick_random_item items w = (Picked item, consume w) /\
       In item items) /\
  (forall items item w,
     In item items ->
     exists raw,
       fst (pick_random_item items
              (mkWorld (config w) (state_manager w) (clock w)
                       (fun _ => raw) (cursor w) (trace w))) = Picked item).
Proof.
  split; [reflexivity|]. split.
  - intros items w Hne. destruct items as [|x items]; [congruence|].
    unfold pick_random_item.
    set (n := Z.of_nat (length (x :: items))).
    assert (Hn : 0 < n) by (subst n; simpl; lia).
    pose proof (Z.mod_pos_bound (entropy w (cursor w)) n Hn) as Hm.
    destruct ((x :: items) !! Z.to_nat (entropy w (cursor w) mod n))
      as [item|] eqn:Hi.
    + exists item. split; [reflexivity|].
      apply list_elem_of_In. eapply list_elem_of_lookup_2. exact Hi.
    + apply lookup_ge_None in Hi. subst n. lia.
  - intros items item w Hin.
    apply list_elem_of_In, list_elem_of_lookup_1 in Hin as [i Hi].
    pose proof (lookup_lt_Some _ _ _ Hi) as Hlt.
    exists (Z.of_nat i). destruct items as [|x items]; [discriminate|].
    unfold pick_random_item. simpl entropy. simpl cursor. cbn [fst].
    rewrite Z.mod_small by lia. rewrite Nat2Z.id, Hi. reflexivity.
Qed.

Lemma pick_random_item_picks_an_item_witness :
  exists item,
    pick_random_item ["a"; "b"; "c"] (boot 50 300 0 (fun _ => 7)) =
      (Picked item, consume (boot 50 300 0 (fun _ => 7))) /\
    In item ["a"; "b"; "c"].
Proof.
  apply (proj1 (proj2 pick_random_item_picks_an_item)). discriminate.
Defined.
